(** * gonb, package [specialcmd]: special commands of a notebook cell

    A shallow embedding of [internal/specialcmd/specialcmd.go] and the
    properties of its command preprocessor:

    - [splitCmd], the tokenizer of a directive line;
    - [joinLine] and [parseCmdBody], which collect the lines of a command;
    - [execInternal], [execWriteFile] and [execShell], the handlers;
    - [Parse], the scan of the lines of a cell.

    Go strings are byte sequences and are indexed by byte: they are modelled
    by [string], whose characters ([ascii]) are the 256 byte values.  The line
    numbers are [nat] (they range over [0 .. len(codeLines)-1]); the set of
    used lines is a Go [Set[int]], modelled by [gset Z].  A run-time panic
    (index out of range, failed type assertion, nil receiver) is an outcome of
    its own, next to a normal return. *)

From Stdlib Require Import ZArith NArith Ascii String List Lia Bool.
From stdpp Require Import base gmap sets list strings.

Local Open Scope string_scope.
#[local] Set Warnings "-clear-no-such-hyp".

(** ** Bytes and strings as Go sees them *)

Module GoString.

Definition byte_space : ascii := " "%char.
Definition byte_tab : ascii := ascii_of_N 9.
Definition byte_newline : ascii := ascii_of_N 10.
Definition byte_quote : ascii := ascii_of_N 34.
Definition byte_backslash : ascii := ascii_of_N 92.
Definition byte_percent : ascii := "%"%char.
Definition byte_bang : ascii := "!"%char.
Definition byte_star : ascii := "*"%char.
Definition byte_equal : ascii := "="%char.

Definition byte_eqb (a b : ascii) : bool := Ascii.eqb a b.

(** [s[len(s)-1]]: [None] on the empty string, where Go panics. *)
Fixpoint last_byte (s : string) : option ascii :=
  match s with
  | EmptyString => None
  | String c EmptyString => Some c
  | String _ s' => last_byte s'
  end.

(** [s[:len(s)-1]] (on a non-empty string). *)
Fixpoint drop_last (s : string) : string :=
  match s with
  | EmptyString => EmptyString
  | String _ EmptyString => EmptyString
  | String c s' => String c (drop_last s')
  end.

(** [strings.Index(s, "=")]-style search of one byte: the index of its
    first occurrence, or [-1]. *)
Fixpoint index_byte_from (i : Z) (b : ascii) (s : string) : Z :=
  match s with
  | EmptyString => (-1)%Z
  | String c s' => if byte_eqb c b then i else index_byte_from (i + 1)%Z b s'
  end.

Definition Index_byte (s : string) (b : ascii) : Z := index_byte_from 0 b s.

(** [s[:n]] and [s[n:]] for [0 <= n <= len(s)]. *)
Fixpoint take_bytes (n : nat) (s : string) : string :=
  match n, s with
  | S n', String c s' => String c (take_bytes n' s')
  | _, _ => EmptyString
  end.

Fixpoint drop_bytes (n : nat) (s : string) : string :=
  match n, s with
  | S n', String _ s' => drop_bytes n' s'
  | _, _ => s
  end.

(** [fmt.Sprintf("%c", c)] for a byte [c]: the verb [%c] formats its
    integer operand as the Unicode code point of that value, written in
    UTF-8.  A byte below 128 is written as itself; a byte [c] from 128 to
    255 is written as the two bytes [0xC0 | c>>6], [0x80 | c&0x3F]. *)
Definition fmt_c (c : ascii) : string :=
  let n := N_of_ascii c in
  if (n <? 128)%N then String c EmptyString
  else String (ascii_of_N (N.lor 192 (N.shiftr n 6)))
         (String (ascii_of_N (N.lor 128 (N.land n 63))) EmptyString).

Definition is_ascii (c : ascii) : bool := (N_of_ascii c <? 128)%N.

End GoString.

Import GoString.

(** ** [splitCmd] *)

Module Split.

Definition isSpace (c : ascii) : bool :=
  byte_eqb c byte_space || byte_eqb c byte_tab || byte_eqb c byte_newline.
Definition isQuote (c : ascii) : bool := byte_eqb c byte_quote.
Definition isEscape (c : ascii) : bool := byte_eqb c byte_backslash.

(** The [switch c] of the escape branch. *)
Definition unescape (c : ascii) : ascii :=
  if byte_eqb c "n"%char then byte_newline
  else if byte_eqb c "t"%char then byte_tab
  else c.

(** The statement after the loop. *)
Definition flush (partStarted : bool) (part : string) (parts : list string)
  : list string :=
  if partStarted then parts ++ [part] else parts.

(** The loop of [splitCmd], from position [pos] on: [cmd] is [cmd[pos:]].
    The escape branch reads a second byte ([pos++]), and stops the loop
    ([break]) when the backslash is the last byte. *)
Fixpoint splitCmd_for (cmd : string) (partStarted inQuotes : bool)
    (part : string) (parts : list string) : list string :=
  match cmd with
  | EmptyString => flush partStarted part parts
  | String c rest =>
      if negb inQuotes && isSpace c then
        splitCmd_for rest false inQuotes EmptyString
          (flush partStarted part parts)
      else if isQuote c then
        if inQuotes then splitCmd_for rest partStarted false part parts
        else splitCmd_for rest true true part parts
      else if isEscape c && inQuotes then
        match rest with
        | EmptyString => flush partStarted part parts
        | String c' rest' =>
            splitCmd_for rest' true inQuotes (part +:+ fmt_c (unescape c'))
              parts
        end
      else
        splitCmd_for rest true inQuotes (part +:+ fmt_c c) parts
  end.

Definition splitCmd (cmd : string) : list string :=
  splitCmd_for cmd false false EmptyString [].

End Split.

Import Split.

(** ** Outcomes: a normal return or a panic, over a mutable state *)

Module Run.

Inductive Outcome (S A : Type) : Type :=
| Ok (a : A) (s : S)
| Panic (s : S).
Arguments Ok {S A} a s.
Arguments Panic {S A} s.

Definition M (S A : Type) : Type := S -> Outcome S A.

Definition ret {S A} (a : A) : M S A := fun s => Ok a s.
Definition bind {S A B} (m : M S A) (k : A -> M S B) : M S B :=
  fun s => match m s with
           | Ok a s' => k a s'
           | Panic s' => Panic s'
           end.
Definition panic {S A} : M S A := fun s => Panic s.
Definition get {S} : M S S := fun s => Ok s s.
Definition modify {S} (f : S -> S) : M S unit := fun s => Ok tt (f s).

(** Runs a computation over a part [T] of the state [S]. *)
Definition zoom {S T A} (proj : S -> T) (upd : T -> S -> S) (m : M T A)
  : M S A :=
  fun s => match m (proj s) with
           | Ok a t => Ok a (upd t s)
           | Panic t => Panic (upd t s)
           end.

Definition state_of {S A} (o : Outcome S A) : S :=
  match o with Ok _ s => s | Panic s => s end.

Definition is_panic {S A} (o : Outcome S A) : bool :=
  match o with Ok _ _ => false | Panic _ => true end.

End Run.

Import Run.

Notation "'let*' x ':=' m 'in' k" := (bind m (fun x => k))
  (at level 10, x name, k at level 200).
Notation "m ;;; k" := (bind m (fun _ => k))
  (at level 100, right associativity).

(** ** [joinLine] and [parseCmdBody] *)

Module Lines.

Definition Insert (i : nat) (usedLines : gset Z) : gset Z :=
  {[ Z.of_nat i ]} ∪ usedLines.

Definition Has (usedLines : gset Z) (i : nat) : bool :=
  bool_decide (Z.of_nat i ∈ usedLines).

(** The loop of [joinLine]; [n] counts the iterations that remain,
    [len(lines) - fromLine].  The state is the set [usedLines], which the
    code updates in place. *)
Fixpoint joinLine_for (n : nat) (lines : list string) (fromLine : nat)
    (cmdStr : string) : M (gset Z) string :=
  match n with
  | 0 => ret cmdStr
  | S n' =>
      match lines !! fromLine with
      | None => panic
      | Some l =>
          let cmdStr := cmdStr +:+ l in
          modify (Insert fromLine) ;;;
          match last_byte cmdStr with
          | None => panic
          | Some c =>
              if negb (byte_eqb c byte_backslash) then ret cmdStr
              else joinLine_for n' lines (S fromLine)
                     (drop_last cmdStr +:+ " ")
          end
      end
  end.

Definition joinLine (lines : list string) (fromLine : nat)
  : M (gset Z) string :=
  joinLine_for (length lines - fromLine) lines fromLine EmptyString.

(** [len(l) > 0 && (l[0] == '%' || l[0] == '!')] *)
Definition starts_with_sigil (l : string) : bool :=
  match l with
  | EmptyString => false
  | String c _ => byte_eqb c byte_percent || byte_eqb c byte_bang
  end.

Fixpoint parseCmdBody_for (n : nat) (lines : list string) (fromLine : nat)
    (cmdBody : string) (usedLines : gset Z) : string * gset Z :=
  match n with
  | 0 => (cmdBody, usedLines)
  | S n' =>
      match lines !! fromLine with
      | None => (cmdBody, usedLines)
      | Some l =>
          if starts_with_sigil l then (cmdBody, usedLines)
          else parseCmdBody_for n' lines (S fromLine)
                 ((cmdBody +:+ l) +:+ String byte_newline EmptyString)
                 (Insert fromLine usedLines)
      end
  end.

Definition parseCmdBody (lines : list string) (fromLine : nat)
    (usedLines : gset Z) : string * gset Z :=
  parseCmdBody_for (length lines - S fromLine) lines (S fromLine)
    EmptyString (Insert fromLine usedLines).

End Lines.

Import Lines.

(** ** The collaborators of the package

    [kernel], [goexec], [jpyexec], [klog], [os] and the helpers of [common]
    are outside this file.  A call to one of them is recorded as an [Event]
    of the trace; what the call returns is read from the [World], as a
    function of the trace up to and including that call. *)

Module Outside.

Inductive value : Type :=
| VStr (s : string)
| VInt (n : Z)
| VStrs (l : list string).

(** Values of Go's [error]: the errors built here with [errors.Errorf],
    [errors.Wrapf] and [errors.WithMessagef], and those a collaborator
    returns. *)
Inductive error : Type :=
| Errorf (format : string) (args : list value)
| Wrapf (err : error) (format : string) (args : list value)
| WithMessagef (err : error) (format : string) (args : list value)
| Foreign (what : string).

Inductive arg : Type :=
| AVal (v : value)
| AErr (e : error).

(** A text handed to a publishing function: a string, or the operands of
    the [fmt.Sprintf] that builds it. *)
Inductive text : Type :=
| Lit (s : string)
| Sprintf (format : string) (args : list value).

Inductive Stream : Type := StreamStdout | StreamStderr.

(** [jpyexec]'s input mode, with the wait in milliseconds. *)
Inductive InputMode : Type :=
| NoInput
| WithInputs (ms : Z)
| WithPassword (ms : Z).

(** An entry of the message's content, a [map[string]any]. *)
Inductive any : Type :=
| AnyBool (b : bool)
| AnyOther (what : string).

(** A [kernel.Message] as far as this file reads it.  Its [Content] is nil
    or a [map[string]any], as the kernel decodes it; a [Content] of another
    dynamic type, on which the type assertion at the head of [execInternal]
    panics, has no counterpart here. *)
Record Message : Type := {
  Content : option (gmap string any);
  ExecCounter : Z
}.

Inductive Event : Type :=
| KlogInfof (level : Z) (format : string) (args : list arg)
| KlogErrorf (format : string) (args : list arg)
| PublishWriteStream (stream : Stream) (t : text)
| PublishHtml (html : string)
| PublishMarkdown (md : string)
| MakeWasmSubdir
| UniqueId
| InstallWebSocket
| SendHeartbeatAndWait (timeout : Z)
| Setenv (key val : string)
| Getwd
| Chdir (dir : string)
| GoModInit
| GoWorkFix
| AutoTrack
| resetDefinitions
| listDefinitions
| removeDefinitions (args : list string)
| execTrack (args : list string)
| execUntrack (args : list string)
| OpenFile (name : string) (flag perm : Z)
| WriteString (name : string) (s : string)
| Close (name : string)
| Exec (name : string) (args : list string) (count : Z) (dir : string)
    (input : InputMode).

Record World : Type := {
  reply_err : list Event -> option error;
  reply_bool : list Event -> bool;
  reply_str : list Event -> string;
  (** [common.FlagsParse] *)
  FlagsParse :
    list string -> gset string -> gmap string string -> gmap string string;
  (** [common.ReplaceTildeInDir] *)
  ReplaceTildeInDir : string -> string;
  (** the embedded [help.md] *)
  HelpMessage : string;
  (** [protocol.GONB_DIR_ENV] *)
  GONB_DIR_ENV : string
}.

(** The fields of [goexec.State] that this file reads or writes. *)
Record GoExec : Type := {
  Args : list string;
  CellIsTest : bool;
  CellIsWasm : bool;
  WasmDivId : string;
  GoBuildFlags : list string;
  AutoGet : bool;
  UniqueID : string;
  TempDir : string
}.

Record cellStatus : Type := {
  withInputs : bool;
  withPassword : bool
}.

(** What a run of [Parse] can change: the caller's set of used lines, the
    [cellStatus] of the cell, the [goexec.State], and the outside world
    through the calls of the trace. *)
Record State : Type := {
  usedLines : gset Z;
  status : cellStatus;
  goExec : GoExec;
  trace : list Event
}.

Definition set_usedLines (u : gset Z) (st : State) : State :=
  {| usedLines := u; status := status st; goExec := goExec st;
     trace := trace st |}.
Definition set_status (c : cellStatus) (st : State) : State :=
  {| usedLines := usedLines st; status := c; goExec := goExec st;
     trace := trace st |}.
Definition set_goExec (g : GoExec) (st : State) : State :=
  {| usedLines := usedLines st; status := status st; goExec := g;
     trace := trace st |}.
Definition set_trace (t : list Event) (st : State) : State :=
  {| usedLines := usedLines st; status := status st; goExec := goExec st;
     trace := t |}.

Definition set_Args (a : list string) (g : GoExec) : GoExec :=
  {| Args := a; CellIsTest := CellIsTest g; CellIsWasm := CellIsWasm g;
     WasmDivId := WasmDivId g; GoBuildFlags := GoBuildFlags g;
     AutoGet := AutoGet g; UniqueID := UniqueID g; TempDir := TempDir g |}.
Definition set_CellIsTest (b : bool) (g : GoExec) : GoExec :=
  {| Args := Args g; CellIsTest := b; CellIsWasm := CellIsWasm g;
     WasmDivId := WasmDivId g; GoBuildFlags := GoBuildFlags g;
     AutoGet := AutoGet g; UniqueID := UniqueID g; TempDir := TempDir g |}.
Definition set_CellIsWasm (b : bool) (g : GoExec) : GoExec :=
  {| Args := Args g; CellIsTest := CellIsTest g; CellIsWasm := b;
     WasmDivId := WasmDivId g; GoBuildFlags := GoBuildFlags g;
     AutoGet := AutoGet g; UniqueID := UniqueID g; TempDir := TempDir g |}.
Definition set_WasmDivId (s : string) (g : GoExec) : GoExec :=
  {| Args := Args g; CellIsTest := CellIsTest g; CellIsWasm := CellIsWasm g;
     WasmDivId := s; GoBuildFlags := GoBuildFlags g;
     AutoGet := AutoGet g; UniqueID := UniqueID g; TempDir := TempDir g |}.
Definition set_GoBuildFlags (l : list string) (g : GoExec) : GoExec :=
  {| Args := Args g; CellIsTest := CellIsTest g; CellIsWasm := CellIsWasm g;
     WasmDivId := WasmDivId g; GoBuildFlags := l;
     AutoGet := AutoGet g; UniqueID := UniqueID g; TempDir := TempDir g |}.
Definition set_AutoGet (b : bool) (g : GoExec) : GoExec :=
  {| Args := Args g; CellIsTest := CellIsTest g; CellIsWasm := CellIsWasm g;
     WasmDivId := WasmDivId g; GoBuildFlags := GoBuildFlags g;
     AutoGet := b; UniqueID := UniqueID g; TempDir := TempDir g |}.

(** Constants of [os] (their Linux values) and of [time]. *)
Definition O_RDWR : Z := 2.
Definition O_CREATE : Z := 64.
Definition O_TRUNC : Z := 512.
Definition O_APPEND : Z := 1024.
Definition Second : Z := 1000000000.

End Outside.

Import Outside.

(** ** The handlers and [Parse] *)

Module Cmd.

(** [MillisecondsWaitForInput] *)
Definition MillisecondsWaitForInput : Z := 200.

Definition dq : string := String byte_quote EmptyString.
Definition nl : string := String byte_newline EmptyString.

Definition str_eqb (a b : string) : bool := String.eqb a b.

Fixpoint one_of (a : string) (l : list string) : bool :=
  match l with
  | [] => false
  | b :: l' => str_eqb a b || one_of a l'
  end.

(** The case labels of the [switch] of [execInternal]. *)
Definition directives : list string :=
  ["%"; "main"; "args"; "test"; "wasm"; "widgets"; "widgets_hb"; "env";
   "cd"; "goflags"; "autoget"; "noautoget"; "help"; "reset"; "ls"; "list";
   "rm"; "remove"; "with_inputs"; "with_password"; "track"; "untrack";
   "goworkfix"].

Definition usage_env : string :=
  "`%%env <VAR_NAME> <value>` (or `%%env <VAR_NAME>=<value>`): it takes 2 arguments, the variable name and it's content, but %d were given".

Definition unknown_format : string :=
  dq +:+ "%%%s" +:+ dq +:+ " unknown or not implemented yet.".

Definition timed_out_html : string :=
  "Timed-out, no heartbeat pong received. Try installing front-end websockets with %widgets ?".

Section Handlers.

Variable W : World.
Variable msg : option Message.

(** A call to a collaborator: the event joins the trace, and the trace
    that results identifies the call. *)
Definition call (e : Event) : M State (list Event) :=
  fun st => let t := (trace st ++ [e])%list in Ok t (set_trace t st).
Definition call_err (e : Event) : M State (option error) :=
  let* t := call e in ret (reply_err W t).
Definition call_str (e : Event) : M State string :=
  let* t := call e in ret (reply_str W t).
Definition call_ (e : Event) : M State unit :=
  call e ;;; ret tt.

Definition modify_goExec (f : GoExec -> GoExec) : M State unit :=
  modify (fun st => set_goExec (f (goExec st)) st).
Definition modify_status (f : cellStatus -> cellStatus) : M State unit :=
  modify (fun st => set_status (f (status st)) st).

(** [if err != nil { klog.Errorf(format, args..., err) }] *)
Definition log_if_err (err : option error) (format : string)
    (args : list arg) : M State unit :=
  match err with
  | Some e => call_ (KlogErrorf format (args ++ [AErr e])%list)
  | None => ret tt
  end.

(** [content["allow_stdin"].(bool)], where [content] is [nil] when the
    message or its content is. *)
Definition allow_stdin : option bool :=
  match msg with
  | Some m =>
      match Content m with
      | Some content =>
          match content !! "allow_stdin" with
          | Some (AnyBool b) => Some b
          | _ => None
          end
      | None => None
      end
  | None => None
  end.

Definition with_input_flag (name : string)
    (set : cellStatus -> cellStatus) : M State (option error) :=
  match allow_stdin with
  | None => panic
  | Some allowInput =>
      let* st := get in
      if negb allowInput
         && (withInputs (status st) || withPassword (status st))
      then ret (Some (Errorf
             ("%%" +:+ name +:+ " not available in this notebook, it doesn't allow input prompting") []))
      else modify_status set ;;; ret None
  end.

Definition execInternal (cmdStr : string) : M State (option error) :=
  match splitCmd cmdStr with
  | [] => panic
  | name :: rest =>
    let parts := name :: rest in
    if one_of name ["%"; "main"; "args"; "test"] then
      modify_goExec (set_Args rest) ;;;
      call_ (KlogInfof 2 "Program args to use (%%%s): %+q"
               [AVal (VStr name); AVal (VStrs rest)]) ;;;
      (if str_eqb name "test" then modify_goExec (set_CellIsTest true)
       else ret tt) ;;;
      ret None
    else if str_eqb name "wasm" then
      if (1 <? length parts)%nat then
        ret (Some (Errorf "`%%wasm` takes no extra parameters." []))
      else
        modify_goExec (set_CellIsWasm true) ;;;
        let* err := call_err MakeWasmSubdir in
        match err with
        | Some e =>
            ret (Some (WithMessagef e "failed to prepare `%%wasm`" []))
        | None =>
            let* id := call_str UniqueId in
            modify_goExec (set_WasmDivId id) ;;;
            ret None
        end
    else if str_eqb name "widgets" then
      call_err InstallWebSocket
    else if str_eqb name "widgets_hb" then
      let* t := call (SendHeartbeatAndWait (1 * Second)) in
      match reply_err W t with
      | Some e => ret (Some e)
      | None =>
          if reply_bool W t
          then call_err (PublishHtml "Heartbeat pong received back.")
          else call_err (PublishHtml timed_out_html)
      end
    else if str_eqb name "env" then
      let parts :=
        match rest with
        | [p1] =>
            let eqPos := Index_byte p1 byte_equal in
            if (1 <? eqPos)%Z then
              [name; take_bytes (Z.to_nat eqPos) p1;
               drop_bytes (Z.to_nat (eqPos + 1)) p1]
            else parts
        | _ => parts
        end in
      match parts with
      | [_; key; val] =>
          let* err := call_err (Setenv key val) in
          match err with
          | Some e =>
              ret (Some (Wrapf e "`%%env %q %q` failed"
                           [VStr key; VStr val]))
          | None =>
              let* err := call_err (PublishWriteStream StreamStdout
                  (Sprintf ("Set: %s=%q" +:+ nl) [VStr key; VStr val])) in
              log_if_err err "Failed to output: %+v" [] ;;;
              ret None
          end
      | _ =>
          ret (Some (Errorf usage_env
                       [VInt (Z.of_nat (length parts) - 1)]))
      end
    else if str_eqb name "cd" then
      match rest with
      | [] =>
          let* pwd := call_str Getwd in
          call_ (PublishWriteStream StreamStdout
                   (Sprintf ("Current directory: %q" +:+ nl) [VStr pwd])) ;;;
          ret None
      | [dir] =>
          let* err := call_err (Chdir (ReplaceTildeInDir W dir)) in
          match err with
          | Some e => ret (Some (Wrapf e "`%%cd %q` failed" [VStr dir]))
          | None =>
              let* pwd := call_str Getwd in
              let* err := call_err (PublishWriteStream StreamStdout
                  (Sprintf ("Changed directory to %q" +:+ nl) [VStr pwd])) in
              log_if_err err "Failed to output: %+v" [] ;;;
              let* err := call_err (Setenv (GONB_DIR_ENV W) pwd) in
              log_if_err err "Failed to set environment variable %q: %+v"
                [AVal (VStr (GONB_DIR_ENV W))] ;;;
              ret None
          end
      | _ =>
          ret (Some (Errorf
            "`%%cd [<directory>]`: it takes none or one argument, but %d were given"
            [VInt (Z.of_nat (length parts) - 1)]))
      end
    else if str_eqb name "goflags" then
      (if (1 <? length parts)%nat then
         modify_goExec (set_GoBuildFlags
           (List.filter (fun s => negb (str_eqb s EmptyString)) rest))
       else ret tt) ;;;
      let* st := get in
      let* err := call_err (PublishWriteStream StreamStdout
          (Sprintf ("%%goflags=%q" +:+ nl)
             [VStrs (GoBuildFlags (goExec st))])) in
      log_if_err err "Failed publishing contents: %+v" [] ;;;
      ret None
    else if str_eqb name "autoget" then
      modify_goExec (set_AutoGet true) ;;; ret None
    else if str_eqb name "noautoget" then
      modify_goExec (set_AutoGet false) ;;; ret None
    else if str_eqb name "help" then
      let* err := call_err (PublishMarkdown (HelpMessage W)) in
      log_if_err err "Failed publishing help contents: %+v" [] ;;;
      ret None
    else if str_eqb name "reset" then
      match rest with
      | [] => call_ resetDefinitions ;;; call_err GoModInit
      | [p1] =>
          if negb (str_eqb p1 "go.mod") then
            ret (Some (Errorf
              ("%%reset only take one optional parameter "
                 +:+ dq +:+ "go.mod" +:+ dq) []))
          else call_err GoModInit
      | _ =>
          ret (Some (Errorf
            ("%%reset only take one optional parameter "
               +:+ dq +:+ "go.mod" +:+ dq) []))
      end
    else if one_of name ["ls"; "list"] then
      call_ listDefinitions ;;; ret None
    else if one_of name ["rm"; "remove"] then
      call_ (removeDefinitions rest) ;;; ret None
    else if str_eqb name "with_inputs" then
      with_input_flag "with_inputs"
        (fun c => {| withInputs := true; withPassword := withPassword c |})
    else if str_eqb name "with_password" then
      with_input_flag "with_password"
        (fun c => {| withInputs := withInputs c; withPassword := true |})
    else if str_eqb name "track" then
      call_ (execTrack rest) ;;; ret None
    else if str_eqb name "untrack" then
      call_ (execUntrack rest) ;;; ret None
    else if str_eqb name "goworkfix" then
      call_err GoWorkFix
    else
      let* err := call_err (PublishWriteStream StreamStderr
          (Sprintf unknown_format [VStr name])) in
      log_if_err err
        ("Error while reporting back on unimplemented message command "
           +:+ dq +:+ "%%%s" +:+ dq +:+ " kernel: %+v")
        [AVal (VStr name)] ;;;
      ret None
  end.

(** [execWriteFile]; the deferred [file.Close()] runs after the value to
    return has been computed. *)
Definition execWriteFile (args : list string) (cmdBody : string)
  : M State (option error) :=
  let noValArg : gset string := {[ "append" ]} in
  let schema : gmap string string := {[ "a" := "append" ]} in
  let parse := FlagsParse W args noValArg schema in
  let appendMode := bool_decide (is_Some (parse !! "append")) in
  let* st := get in
  let filename :=
    match parse !! "-pos1" with
    | Some f => f
    | None => UniqueID (goExec st) +:+ ".out"
    end in
  let fileFlag := Z.lor O_RDWR O_CREATE in
  let fileFlag :=
    if appendMode then Z.lor fileFlag O_APPEND
    else Z.lor fileFlag O_TRUNC in
  let* err := call_err (OpenFile filename fileFlag 438) in
  match err with
  | Some e => ret (Some e)
  | None =>
      let* err := call_err (WriteString filename cmdBody) in
      match err with
      | Some e => call_ (Close filename) ;;; ret (Some e)
      | None =>
          let* err := call_err (PublishWriteStream StreamStdout
              (Lit ("write to " +:+ filename +:+ " success" +:+ nl))) in
          call_ (Close filename) ;;;
          ret err
      end
  end.

Definition no_flags : cellStatus :=
  {| withInputs := false; withPassword := false |}.

(** [jpyexec.New(msg, "/bin/bash", "-c", cmdStr).
    ExecutionCount(msg.Kernel().ExecCounter).InDir(execDir)...Exec()];
    [msg.Kernel()] panics on a nil message. *)
Definition bash (cmdStr execDir : string) (input : InputMode)
  : M State (option error) :=
  match msg with
  | None => panic
  | Some m =>
      call_err (Exec "/bin/bash" ["-c"; cmdStr] (ExecCounter m) execDir
                  input)
  end.

Definition execShell (cmdStr : string) : M State (option error) :=
  match cmdStr with
  | EmptyString => panic
  | String c rest =>
      let* st := get in
      let cmdStr := if byte_eqb c byte_star then rest else cmdStr in
      let execDir :=
        if byte_eqb c byte_star then TempDir (goExec st)
        else EmptyString in
      if withInputs (status st) then
        modify_status (fun _ => no_flags) ;;;
        bash cmdStr execDir (WithInputs MillisecondsWaitForInput)
      else if withPassword (status st) then
        modify_status (fun _ => no_flags) ;;;
        bash cmdStr execDir (WithPassword MillisecondsWaitForInput)
      else
        bash cmdStr execDir NoInput
  end.

(** [for cmdStr[0] == ' ' { cmdStr = cmdStr[1:] }]: reading [cmdStr[0]]
    of the empty string panics ([None]). *)
Fixpoint skip_spaces (cmdStr : string) : option string :=
  match cmdStr with
  | EmptyString => None
  | String c rest =>
      if byte_eqb c byte_space then skip_spaces rest else Some cmdStr
  end.

(** [len(line) > 1 && (line[0] == '%' || line[0] == '!')] *)
Definition is_command (line : string) : bool :=
  (1 <? String.length line)%nat && starts_with_sigil line.

Definition run_joinLine (codeLines : list string) (lineNum : nat)
  : M State string :=
  zoom usedLines set_usedLines (joinLine codeLines lineNum).

Definition run_parseCmdBody (codeLines : list string) (lineNum : nat)
  : M State string :=
  fun st =>
    let '(cmdBody, u) := parseCmdBody codeLines lineNum (usedLines st) in
    Ok cmdBody (set_usedLines u st).

(** The command found on a line, run when [execute] is set.  The result
    is [inl err] where the code returns [err] from [Parse], and
    [inr err] where the loop goes on with the variable [err]. *)
Definition run_command (codeLines : list string) (lineNum : nat)
    (cmdType : ascii) (cmdStr : string) (err : option error)
  : M State (option error + option error) :=
  if byte_eqb cmdType byte_percent then
    let parts := splitCmd cmdStr in
    match parts with
    | name :: rest =>
        if str_eqb name "writefile" then
          let* cmdBody := run_parseCmdBody codeLines lineNum in
          let* err := execWriteFile rest cmdBody in
          match err with
          | Some _ => ret (inl err)
          | None => ret (inr err)
          end
        else
          let* err := execInternal cmdStr in
          match err with
          | Some _ => ret (inl err)
          | None => ret (inr err)
          end
    | [] =>
        let* err := execInternal cmdStr in
        match err with
        | Some _ => ret (inl err)
        | None => ret (inr err)
        end
    end
  else if byte_eqb cmdType byte_bang then
    let* err := execShell cmdStr in
    match err with
    | Some _ => ret (inl err)
    | None =>
        let* err := call_err AutoTrack in
        log_if_err err "goExec.AutoTrack failed: %+v" [] ;;;
        ret (inr err)
    end
  else ret (inr err).

(** The loop of [Parse] from [lineNum] on; [n] counts the iterations
    that remain, and [err] is the named result of [Parse]. *)
Fixpoint Parse_for (n : nat) (execute : bool) (codeLines : list string)
    (lineNum : nat) (err : option error) : M State (option error) :=
  match n with
  | 0 => ret err
  | S n' =>
      let* st := get in
      if Has (usedLines st) lineNum then
        Parse_for n' execute codeLines (S lineNum) err
      else
        match codeLines !! lineNum with
        | None => panic
        | Some line =>
            if is_command line then
              let* cmdStr := run_joinLine codeLines lineNum in
              match cmdStr with
              | EmptyString => panic
              | String cmdType cmdStr =>
                  match skip_spaces cmdStr with
                  | None => panic
                  | Some cmdStr =>
                      if (String.length cmdStr =? 0)%nat then
                        Parse_for n' execute codeLines (S lineNum) err
                      else if execute then
                        let* r := run_command codeLines lineNum cmdType
                                    cmdStr err in
                        match r with
                        | inl err => ret err
                        | inr err =>
                            Parse_for n' execute codeLines (S lineNum) err
                        end
                      else
                        Parse_for n' execute codeLines (S lineNum) err
                  end
              end
            else Parse_for n' execute codeLines (S lineNum) err
        end
  end.

Definition Parse (execute : bool) (codeLines : list string)
  : M State (option error) :=
  modify_status (fun _ => no_flags) ;;;
  Parse_for (length codeLines) execute codeLines 0 None.

End Handlers.

End Cmd.


Import Cmd.

(** ** What the properties are stated with *)

Module Spec.

(** A byte that is ASCII and neither a space nor a quote: the bytes of an
    ordinary word of a directive. *)
Definition plain (c : ascii) : bool :=
  is_ascii c && negb (isSpace c) && negb (isQuote c).

Fixpoint all_plain (s : string) : bool :=
  match s with
  | EmptyString => true
  | String c s' => plain c && all_plain s'
  end.

Definition ends_with_backslash (l : string) : bool :=
  match last_byte l with
  | Some c => byte_eqb c byte_backslash
  | None => false
  end.

(** The joined command as the specification words it, for the lines [ls]
    from the starting line on: a line that ends with a backslash is joined
    with the next one, the backslash replaced by one space. *)
Fixpoint joined (ls : list string) : string :=
  match ls with
  | [] => EmptyString
  | l :: ls' =>
      if ends_with_backslash l then drop_last l +:+ " " +:+ joined ls'
      else l
  end.

(** The number of lines that the joined command takes. *)
Fixpoint consumed (ls : list string) : nat :=
  match ls with
  | [] => 0
  | l :: ls' => if ends_with_backslash l then S (consumed ls') else 1
  end.

(** The line numbers [from], ..., [from + n - 1]. *)
Definition line_range (from n : nat) : gset Z :=
  list_to_set (Z.of_nat <$> seq from n).

(** The body of a file-writing directive as the specification words it: the
    lines [ls] after the directive, up to the first one that begins with a
    sigil; each is followed by a newline. *)
Fixpoint body_lines (ls : list string) : list string :=
  match ls with
  | [] => []
  | l :: ls' => if starts_with_sigil l then [] else l :: body_lines ls'
  end.

Fixpoint body_text (ls : list string) : string :=
  match ls with
  | [] => EmptyString
  | l :: ls' => l +:+ nl +:+ body_text ls'
  end.

Fixpoint all_spaces (s : string) : bool :=
  match s with
  | EmptyString => true
  | String c s' => byte_eqb c byte_space && all_spaces s'
  end.

(** A line made of a sigil and then of spaces only, at least one. *)
Definition blank_command (l : string) : bool :=
  match l with
  | EmptyString => false
  | String c rest =>
      (byte_eqb c byte_percent || byte_eqb c byte_bang)
      && negb (String.eqb rest EmptyString) && all_spaces rest
  end.

(** A line whose text after the first byte has a byte that is neither a
    space nor the backslash that ends the line. *)
Definition has_text (l : string) : bool :=
  match l with
  | EmptyString => false
  | String _ rest =>
      negb (all_spaces (if ends_with_backslash rest then drop_last rest
                        else rest))
  end.

(** The flags that [execWriteFile] passes to [os.OpenFile]. *)
Definition write_flags (appendMode : bool) : Z :=
  if appendMode then Z.lor (Z.lor O_RDWR O_CREATE) O_APPEND
  else Z.lor (Z.lor O_RDWR O_CREATE) O_TRUNC.

Definition written_name (W : World) (args : list string) (g : GoExec)
  : string :=
  match FlagsParse W args {[ "append" ]} {[ "a" := "append" ]} !! "-pos1" with
  | Some f => f
  | None => UniqueID g +:+ ".out"
  end.

Definition append_given (W : World) (args : list string) : bool :=
  bool_decide
    (is_Some (FlagsParse W args {[ "append" ]} {[ "a" := "append" ]}
                !! "append")).

(** The accumulated string [acc] is empty before a non-empty first line, or
    ends with the space that replaced a backslash. *)
Definition ready (acc l : string) : Prop :=
  (acc = EmptyString /\ l <> EmptyString) \/ last_byte acc = Some byte_space.

(** What [Parse] does with a command line that is not used yet, once its
    lines are joined. *)
Definition after_join (W : World) (msg : option Message) (n : nat)
    (execute : bool) (lines : list string) (i : nat) (err : option error)
    (cmdStr : string) : M State (option error) :=
  match cmdStr with
  | EmptyString => panic
  | String cmdType cmdStr =>
      match skip_spaces cmdStr with
      | None => panic
      | Some cmdStr =>
          if (String.length cmdStr =? 0)%nat then
            Parse_for W msg n execute lines (S i) err
          else if execute then
            let* r := run_command W msg lines i cmdType cmdStr err in
            match r with
            | inl err => ret err
            | inr err => Parse_for W msg n execute lines (S i) err
            end
          else Parse_for W msg n execute lines (S i) err
      end
  end.

(** Line [i] continues the command of the line before it, which is in [u]
    and ends with a backslash. *)
Definition continues (lines : list string) (u : gset Z) (i : nat) : Prop :=
  exists l', 1 <= i /\ lines !! (i - 1) = Some l'
             /\ ends_with_backslash l' = true /\ Z.of_nat (i - 1) ∈ u.

(** From [u0] to [u], only command lines and their continuation lines were
    added. *)
Definition marked_by_scan (lines : list string) (u0 u : gset Z) : Prop :=
  u0 ⊆ u
  /\ forall z, z ∈ u -> z ∉ u0 ->
       exists i l, z = Z.of_nat i /\ lines !! i = Some l
                   /\ (is_command l = true \/ continues lines u i).

(** A line added to [u0] that ends with a backslash has the line after it
    in [u]. *)
Definition closed_by_scan (lines : list string) (u0 u : gset Z) : Prop :=
  forall j l, lines !! j = Some l -> Z.of_nat j ∈ u -> Z.of_nat j ∉ u0 ->
              ends_with_backslash l = true -> S j < length lines ->
              Z.of_nat (S j) ∈ u.

(** Every command line of the cell has a text after its sigil. *)
Definition commands_have_text (lines : list string) : Prop :=
  forall l, l ∈ lines -> is_command l = true -> has_text l = true.

End Spec.

Import Spec.

(** ** Sample worlds, to run the definitions on *)

Module Sample.

(** Modelled from the spec: [common.FlagsParse] is missing from the sources;
    the specification gives the file-writing directive "an optional append
    flag and a destination name".  This stand-in reads [-a] and [--append]
    as the flag and the first other argument as the name. *)
Fixpoint sample_FlagsParse (args : list string) (noValArg : gset string)
    (schema : gmap string string) : gmap string string :=
  match args with
  | [] => ∅
  | a :: args' =>
      let m := sample_FlagsParse args' noValArg schema in
      if str_eqb a "-a" || str_eqb a "--append" then <[ "append" := "" ]> m
      else <[ "-pos1" := a ]> m
  end.

(** Every call succeeds; the heartbeat gets no reply. *)
Definition quiet : World :=
  {| reply_err := fun _ => None;
     reply_bool := fun _ => false;
     reply_str := fun _ => EmptyString;
     FlagsParse := sample_FlagsParse;
     ReplaceTildeInDir := fun d => d;
     HelpMessage := "help";
     GONB_DIR_ENV := "GONB_DIR" |}.

(** As [quiet], but publishing HTML fails. *)
Definition no_html : World :=
  {| reply_err := fun t =>
       match last t with
       | Some (PublishHtml _) => Some (Foreign "publish failed")
       | _ => None
       end;
     reply_bool := fun _ => false;
     reply_str := fun _ => EmptyString;
     FlagsParse := sample_FlagsParse;
     ReplaceTildeInDir := fun d => d;
     HelpMessage := "help";
     GONB_DIR_ENV := "GONB_DIR" |}.

Definition a_message : Message :=
  {| Content := Some {[ "allow_stdin" := AnyBool true ]}; ExecCounter := 7 |}.

Definition a_goExec : GoExec :=
  {| Args := []; CellIsTest := false; CellIsWasm := false;
     WasmDivId := EmptyString; GoBuildFlags := []; AutoGet := true;
     UniqueID := "cell"; TempDir := "/tmp/gonb" |}.

Definition start : State :=
  {| usedLines := ∅; status := no_flags; goExec := a_goExec; trace := [] |}.

End Sample.

Import Sample.

(** ** Further notions for the properties *)

Module More.

(** The words joined by one space. *)
Fixpoint unwords (ws : list string) : string :=
  match ws with
  | [] => EmptyString
  | [w] => w
  | w :: ws' => w +:+ " " +:+ unwords ws'
  end.

(** A non-empty string of plain bytes. *)
Definition word (w : string) : bool :=
  match w with
  | EmptyString => false
  | String _ _ => all_plain w
  end.

Fixpoint all_ascii (s : string) : bool :=
  match s with
  | EmptyString => true
  | String c s' => is_ascii c && all_ascii s'
  end.

(** An argument written between quotes: a backslash goes before each quote
    and each backslash of the argument. *)
Fixpoint quote_escape (s : string) : string :=
  match s with
  | EmptyString => EmptyString
  | String c s' =>
      if isQuote c || isEscape c
      then String byte_backslash (String c (quote_escape s'))
      else String c (quote_escape s')
  end.

Definition quoted (s : string) : string :=
  String byte_quote (quote_escape s +:+ dq).

Fixpoint all_whitespace (s : string) : bool :=
  match s with
  | EmptyString => true
  | String c s' => isSpace c && all_whitespace s'
  end.

(** From [st] to [st'], the set of used lines is the same, the trace has
    only grown, and the identifier and the scratch directory of the
    [goexec.State] are the same. *)
Definition extends (st st' : State) : Prop :=
  usedLines st' = usedLines st
  /\ (exists t, trace st' = (trace st ++ t)%list)
  /\ UniqueID (goExec st') = UniqueID (goExec st)
  /\ TempDir (goExec st') = TempDir (goExec st).

Definition framed {A} (m : M State A) : Prop :=
  forall st, extends st (state_of (m st)).

(** From [st] to [st'], the set of used lines has gained line numbers of
    the cell only, and the trace has only grown. *)
Definition scanned (lines : list string) (st st' : State) : Prop :=
  usedLines st ⊆ usedLines st'
  /\ (forall z, z ∈ usedLines st' -> z ∉ usedLines st ->
                (0 <= z < Z.of_nat (length lines))%Z)
  /\ exists t, trace st' = (trace st ++ t)%list.

(** As [quiet], but [goExec.AutoTrack] fails. *)
Definition no_track : World :=
  {| reply_err := fun t =>
       match last t with
       | Some AutoTrack => Some (Foreign "go.mod not found")
       | _ => None
       end;
     reply_bool := fun _ => false;
     reply_str := fun _ => EmptyString;
     FlagsParse := sample_FlagsParse;
     ReplaceTildeInDir := fun d => d;
     HelpMessage := "help";
     GONB_DIR_ENV := "GONB_DIR" |}.

(** What [%env] does once it has a name and a value: [os.Setenv], then the
    report on the standard output, whose failure is only logged. *)
Definition env_outcome (W : World) (key val : string) (st : State)
  : Outcome State (option error) :=
  let set := (trace st ++ [Setenv key val])%list in
  let told :=
    (set ++ [PublishWriteStream StreamStdout
               (Sprintf ("Set: %s=%q" +:+ nl) [VStr key; VStr val])])%list in
  match reply_err W set with
  | Some e =>
      Ok (Some (Wrapf e "`%%env %q %q` failed" [VStr key; VStr val]))
        (set_trace set st)
  | None =>
      match reply_err W told with
      | Some e =>
          Ok None
            (set_trace (told ++ [KlogErrorf "Failed to output: %+v"
                                   [AErr e]])%list st)
      | None => Ok None (set_trace told st)
      end
  end.

Fixpoint no_equal (s : string) : bool :=
  match s with
  | EmptyString => true
  | String c s' => negb (byte_eqb c byte_equal) && no_equal s'
  end.

(** As [quiet], but nothing can be published. *)
Definition no_publish : World :=
  {| reply_err := fun t =>
       match last t with
       | Some (PublishWriteStream _ _) => Some (Foreign "closed")
       | Some (PublishMarkdown _) => Some (Foreign "closed")
       | Some (PublishHtml _) => Some (Foreign "closed")
       | _ => None
       end;
     reply_bool := fun _ => false;
     reply_str := fun _ => "/home/me";
     FlagsParse := sample_FlagsParse;
     ReplaceTildeInDir := fun d => d;
     HelpMessage := "help";
     GONB_DIR_ENV := "GONB_DIR" |}.




Definition reset_usage : error :=
  Errorf ("%%reset only take one optional parameter "
            +:+ dq +:+ "go.mod" +:+ dq) [].

Definition cd_usage (given : Z) : error :=
  Errorf
    "`%%cd [<directory>]`: it takes none or one argument, but %d were given"
    [VInt given].






(** A string as [splitCmd] copies it into a part, byte by byte with
    [%c]. *)
Fixpoint fmt_s (s : string) : string :=
  match s with
  | EmptyString => EmptyString
  | String c s' => fmt_c c +:+ fmt_s s'
  end.

(** Bytes of a character that is not ASCII. *)
Fixpoint all_high (s : string) : bool :=
  match s with
  | EmptyString => true
  | String c s' => negb (is_ascii c) && all_high s'
  end.

(** The letter e with an acute accent, in UTF-8. *)
Definition e_acute : string :=
  String (ascii_of_N 195) (String (ascii_of_N 169) EmptyString).

End More.

Import More.

(** * Properties *)

(** ** Strings *)

Lemma app_empty_r (s : string) : s +:+ EmptyString = s.
Proof.
  induction s as [|c s IH]; [reflexivity|].
  change (String c s +:+ "") with (String c (s +:+ "")). now rewrite IH.
Qed.

Lemma app_assoc' (a b c : string) : (a +:+ b) +:+ c = a +:+ (b +:+ c).
Proof.
  induction a as [|x a IH]; [reflexivity|].
  change (String x ((a +:+ b) +:+ c) = String x (a +:+ (b +:+ c))).
  now rewrite IH.
Qed.

Lemma app_nonempty_r (a b : string) :
  b <> EmptyString -> a +:+ b <> EmptyString.
Proof. destruct a; [trivial | discriminate]. Qed.

Lemma last_byte_cons (x : ascii) (s : string) :
  s <> EmptyString -> last_byte (String x s) = last_byte s.
Proof. destruct s; [contradiction | reflexivity]. Qed.

Lemma drop_last_cons (x : ascii) (s : string) :
  s <> EmptyString -> drop_last (String x s) = String x (drop_last s).
Proof. destruct s; [contradiction | reflexivity]. Qed.

Lemma last_byte_app (a b : string) :
  b <> EmptyString -> last_byte (a +:+ b) = last_byte b.
Proof.
  intros Hb. induction a as [|x a IH]; [reflexivity|].
  change (String x a +:+ b) with (String x (a +:+ b)).
  rewrite last_byte_cons by now apply app_nonempty_r. exact IH.
Qed.

Lemma drop_last_app (a b : string) :
  b <> EmptyString -> drop_last (a +:+ b) = a +:+ drop_last b.
Proof.
  intros Hb. induction a as [|x a IH]; [reflexivity|].
  change (String x a +:+ b) with (String x (a +:+ b)).
  rewrite drop_last_cons by now apply app_nonempty_r.
  now rewrite IH.
Qed.

Lemma last_byte_None (s : string) : last_byte s = None -> s = EmptyString.
Proof.
  induction s as [|c s IH]; [reflexivity|].
  destruct s as [|d s]; [discriminate|].
  rewrite last_byte_cons by discriminate. intros H. specialize (IH H).
  discriminate.
Qed.

Lemma byte_eqb_eq (a b : ascii) : byte_eqb a b = true <-> a = b.
Proof. apply Ascii.eqb_eq. Qed.

Lemma byte_eqb_neq (a b : ascii) : byte_eqb a b = false <-> a <> b.
Proof. apply Ascii.eqb_neq. Qed.

Lemma fmt_c_ascii (c : ascii) :
  is_ascii c = true -> fmt_c c = String c EmptyString.
Proof. unfold is_ascii, fmt_c. intros H. now rewrite H. Qed.

(** ** The tokenizer *)

(** Inside quotes, a backslash and the byte after it add one unescaped
    character to the current part. *)
Lemma splitCmd_for_escape (c : ascii) (rest : string) (ps : bool)
    (part : string) (parts : list string) :
  splitCmd_for (String byte_backslash (String c rest)) ps true part parts
  = splitCmd_for rest true true (part +:+ fmt_c (unescape c)) parts.
Proof. reflexivity. Qed.

Lemma unescape_n : unescape "n"%char = byte_newline.
Proof. reflexivity. Qed.

Lemma unescape_t : unescape "t"%char = byte_tab.
Proof. reflexivity. Qed.

Lemma unescape_other (c : ascii) :
  c <> "n"%char -> c <> "t"%char -> unescape c = c.
Proof.
  intros Hn Ht. unfold unescape.
  apply byte_eqb_neq in Hn, Ht. now rewrite Hn, Ht.
Qed.

(** An ASCII byte after a backslash, inside quotes, is added as it is,
    unless it is [n] or [t]. *)
Lemma splitCmd_for_escape_ascii (c : ascii) (rest : string) (ps : bool)
    (part : string) (parts : list string) :
  is_ascii c = true -> c <> "n"%char -> c <> "t"%char ->
  splitCmd_for (String byte_backslash (String c rest)) ps true part parts
  = splitCmd_for rest true true (part +:+ String c EmptyString) parts.
Proof.
  intros Ha Hn Ht. rewrite splitCmd_for_escape, unescape_other by assumption.
  now rewrite fmt_c_ascii.
Qed.

(** Outside quotes a backslash is a byte of the part like any other. *)
Lemma splitCmd_for_backslash_outside (rest : string) (ps : bool)
    (part : string) (parts : list string) :
  splitCmd_for (String byte_backslash rest) ps false part parts
  = splitCmd_for rest true false
      (part +:+ String byte_backslash EmptyString) parts.
Proof. reflexivity. Qed.

Lemma splitCmd_for_plain (c : ascii) (rest : string) (ps : bool)
    (part : string) (parts : list string) :
  plain c = true ->
  splitCmd_for (String c rest) ps false part parts
  = splitCmd_for rest true false (part +:+ String c EmptyString) parts.
Proof.
  unfold plain. intros H.
  apply andb_prop in H as [H Hq]. apply andb_prop in H as [Ha Hs].
  apply negb_true_iff in Hs, Hq.
  simpl. rewrite Hs, Hq. simpl.
  rewrite (fmt_c_ascii _ Ha).
  destruct (isEscape c); reflexivity.
Qed.

Lemma splitCmd_for_word (w rest : string) (c : ascii) (ps : bool)
    (part : string) (parts : list string) :
  plain c = true -> all_plain w = true ->
  splitCmd_for (String c w +:+ rest) ps false part parts
  = splitCmd_for rest true false (part +:+ String c w) parts.
Proof.
  revert c ps part. induction w as [|d w IH]; intros c ps part Hc Hw.
  - change (String c "" +:+ rest) with (String c rest).
    now apply splitCmd_for_plain.
  - simpl in Hw. apply andb_prop in Hw as [Hd Hw].
    change (String c (String d w) +:+ rest)
      with (String c (String d w +:+ rest)).
    rewrite splitCmd_for_plain by assumption.
    rewrite IH by assumption.
    now rewrite app_assoc'.
Qed.

(** C1.  Tokenizing the directive [%args --text "hello world"] gives exactly
    the three parts [%args], [--text] and [hello world]: the quoted
    substring keeps its space and is one part, and the quotes are not in the
    output. *)
Theorem splitCmd_args_text :
  splitCmd ("%args --text " +:+ dq +:+ "hello world" +:+ dq)
  = ["%args"; "--text"; "hello world"].
Proof. vm_compute. reflexivity. Qed.

(** The escapes that the documentation of [splitCmd] names. *)
Example splitCmd_escapes :
  splitCmd ("args " +:+ dq +:+ "a\nb\tc\" +:+ dq +:+ "d\\e" +:+ dq
              +:+ " f\ng")
  = ["args";
     "a" +:+ nl +:+ "b" +:+ String byte_tab "c" +:+ dq +:+ "d\e";
     "f\ng"].
Proof. vm_compute. reflexivity. Qed.

(** C4.  The splitter on [%args "\é"], where [é] is the two bytes 195 and
    169 of its UTF-8 form: the part is not [é] but the four bytes 195, 131,
    194, 169, each byte having been formatted with [%c] as a code point. *)
Theorem splitCmd_escape_not_literal :
  let e_acute := String (ascii_of_N 195) (String (ascii_of_N 169) "") in
  splitCmd ("%args " +:+ dq +:+ "\" +:+ e_acute +:+ dq)
  = ["%args";
     String (ascii_of_N 195) (String (ascii_of_N 131)
       (String (ascii_of_N 194) (String (ascii_of_N 169) "")))]
  /\ splitCmd ("%args " +:+ dq +:+ "\" +:+ e_acute +:+ dq)
     <> ["%args"; e_acute].
Proof. vm_compute. split; [reflexivity | discriminate]. Qed.

(** ** Joining the lines of a command *)

Lemma line_range_S (from n : nat) :
  line_range from (S n) = {[ Z.of_nat from ]} ∪ line_range (S from) n.
Proof. reflexivity. Qed.

Lemma line_range_0 (from : nat) : line_range from 0 = ∅.
Proof. reflexivity. Qed.

Lemma elem_of_line_range (i : Z) (from n : nat) :
  i ∈ line_range from n
  <-> exists j : nat, i = Z.of_nat j /\ from <= j < from + n.
Proof.
  revert from. induction n as [|n IH]; intros from.
  - rewrite line_range_0. split; [set_solver|]. intros (j & _ & Hj). lia.
  - rewrite line_range_S, elem_of_union, elem_of_singleton, IH. split.
    + intros [-> | (j & -> & Hj)]; [exists from | exists j]; split; (reflexivity || lia).
    + intros (j & -> & Hj). destruct (decide (j = from)) as [-> | Hne];
        [now left | right]. exists j. split; [reflexivity | lia].
Qed.

Lemma joinLine_for_step (n : nat) (lines : list string) (i : nat)
    (acc l : string) (used : gset Z) :
  lines !! i = Some l ->
  joinLine_for (S n) lines i acc used
  = match last_byte (acc +:+ l) with
    | None => Panic (Insert i used)
    | Some c =>
        if negb (byte_eqb c byte_backslash)
        then Ok (acc +:+ l) (Insert i used)
        else joinLine_for n lines (S i) (drop_last (acc +:+ l) +:+ " ")
               (Insert i used)
    end.
Proof.
  intros H. simpl. rewrite H. unfold bind, modify, panic, ret.
  destruct (last_byte (acc +:+ l)) as [c|]; [|reflexivity].
  destruct (negb (byte_eqb c byte_backslash)); reflexivity.
Qed.

Lemma drop_cons_inv {A} (lines : list A) (i : nat) (l : A) (ls : list A) :
  drop i lines = l :: ls -> lines !! i = Some l /\ drop (S i) lines = ls.
Proof.
  intros H.
  assert (Hl : lines !! i = Some l).
  { replace i with (i + 0) by lia. rewrite <- lookup_drop, H. reflexivity. }
  split; [exact Hl|].
  rewrite (drop_S _ _ _ Hl) in H. now injection H.
Qed.

Lemma ready_last_byte (acc l : string) :
  ready acc l ->
  exists c, last_byte (acc +:+ l) = Some c
            /\ byte_eqb c byte_backslash = ends_with_backslash l.
Proof.
  intros Hr. destruct (String.eqb_spec l EmptyString) as [-> | Hl].
  - destruct Hr as [[_ Hne] | Hsp]; [contradiction|].
    rewrite app_empty_r, Hsp. exists byte_space. split; reflexivity.
  - rewrite last_byte_app by assumption. unfold ends_with_backslash.
    destruct (last_byte l) as [c|] eqn:E.
    + exists c. split; reflexivity.
    + apply last_byte_None in E. contradiction.
Qed.

Lemma joinLine_for_joined (ls : list string) :
  forall (lines : list string) (fromLine : nat) (acc : string)
         (used : gset Z),
    drop fromLine lines = ls ->
    match ls with l :: _ => ready acc l | [] => True end ->
    joinLine_for (length ls) lines fromLine acc used
    = Ok (acc +:+ joined ls) (line_range fromLine (consumed ls) ∪ used).
Proof.
  induction ls as [|l ls IH]; intros lines i acc used Hdrop Hready.
  - simpl. unfold ret. rewrite app_empty_r, line_range_0.
    f_equal. set_solver.
  - apply drop_cons_inv in Hdrop as [Hl Hdrop].
    change (length (l :: ls)) with (S (length ls)).
    rewrite (joinLine_for_step _ _ _ _ _ _ Hl).
    destruct (ready_last_byte _ _ Hready) as (c & Hc & Hbs).
    rewrite Hc, Hbs. simpl joined. simpl consumed.
    destruct (ends_with_backslash l) eqn:Hends; simpl negb; cbv iota.
    + assert (Hne : l <> EmptyString) by (intros ->; discriminate).
      rewrite IH.
      * rewrite drop_last_app by assumption.
        rewrite line_range_S. unfold Insert. f_equal.
        -- now rewrite !app_assoc'.
        -- set_solver.
      * exact Hdrop.
      * destruct ls; [exact I|]. right.
        rewrite last_byte_app by discriminate. reflexivity.
    + unfold Insert. rewrite line_range_S, line_range_0. f_equal. set_solver.
Qed.

(** From a non-empty line on, [joinLine] does not panic. *)
Lemma joinLine_from_line (lines : list string) (fromLine : nat) (l : string)
    (used : gset Z) :
  lines !! fromLine = Some l -> l <> EmptyString ->
  joinLine lines fromLine used
  = Ok (joined (drop fromLine lines))
      (line_range fromLine (consumed (drop fromLine lines)) ∪ used).
Proof.
  intros Hl Hne. unfold joinLine. rewrite <- length_drop.
  rewrite (joinLine_for_joined (drop fromLine lines) lines fromLine);
    [reflexivity | reflexivity |].
  rewrite (drop_S _ _ _ Hl). left. now split.
Qed.

(** Past the last line, [joinLine] returns the empty string and marks no
    line. *)
Lemma joinLine_past_end (lines : list string) (fromLine : nat)
    (used : gset Z) :
  length lines <= fromLine ->
  joinLine lines fromLine used = Ok EmptyString used.
Proof.
  intros H. unfold joinLine.
  replace (length lines - fromLine) with 0 by lia. reflexivity.
Qed.

(** From an empty line, [joinLine] panics: it reads the last byte of the
    empty string. *)
Lemma joinLine_empty_line (lines : list string) (fromLine : nat)
    (used : gset Z) :
  lines !! fromLine = Some EmptyString ->
  joinLine lines fromLine used = Panic (Insert fromLine used).
Proof.
  intros Hl. unfold joinLine.
  pose proof (lookup_lt_Some _ _ _ Hl) as Hlt.
  replace (length lines - fromLine) with (S (length lines - S fromLine))
    by lia.
  now rewrite (joinLine_for_step _ _ _ _ _ _ Hl).
Qed.

(** C2.  From a non-empty starting line, [joinLine] returns the lines joined
    as the specification says (each trailing backslash replaced by one space
    and followed by the next line, until a line does not end with a
    backslash or the lines end), and inserts every line it took, the
    starting line included, into the set of used lines. *)
Theorem joinLine_joins (lines : list string) (fromLine : nat) (l : string)
    (used : gset Z) :
  lines !! fromLine = Some l -> l <> EmptyString ->
  let k := consumed (drop fromLine lines) in
  joinLine lines fromLine used
  = Ok (joined (drop fromLine lines)) (line_range fromLine k ∪ used)
  /\ 1 <= k
  /\ forall i : nat, fromLine <= i < fromLine + k ->
       Z.of_nat i ∈ line_range fromLine k ∪ used.
Proof.
  intros Hl Hne k. split; [|split].
  - now apply (joinLine_from_line lines fromLine l).
  - subst k. rewrite (drop_S _ _ _ Hl). simpl.
    destruct (ends_with_backslash l); lia.
  - intros i Hi. apply elem_of_union. left.
    apply elem_of_line_range. now exists i.
Qed.

Lemma joinLine_joins_witness :
  joinLine ["x"; "!echo a \"; "b\"; "c"; "d"] 1 {[ 0%Z ]}
  = Ok "!echo a  b c" {[ 0%Z; 1%Z; 2%Z; 3%Z ]}.
Proof.
  destruct (joinLine_joins ["x"; "!echo a \"; "b\"; "c"; "d"] 1 "!echo a \"
              {[ 0%Z ]} eq_refl ltac:(discriminate)) as [H _].
  rewrite H. vm_compute. reflexivity.
Defined.

(** ** The scan of [Parse] *)

Lemma skip_spaces_all_spaces (s : string) :
  all_spaces s = true -> skip_spaces s = None.
Proof.
  induction s as [|c s IH]; [reflexivity|]. simpl.
  intros H. apply andb_prop in H as [Hc Hs]. rewrite Hc. now apply IH.
Qed.

Lemma all_spaces_last_byte (s : string) :
  all_spaces s = true -> s <> EmptyString -> last_byte s = Some byte_space.
Proof.
  induction s as [|c s IH]; [contradiction|]. simpl all_spaces.
  intros H _. apply andb_prop in H as [Hc Hs]. apply byte_eqb_eq in Hc.
  destruct s as [|d s]; [now subst|].
  rewrite last_byte_cons by discriminate. now apply IH.
Qed.

Lemma blank_command_inv (l : string) :
  blank_command l = true ->
  exists c rest, l = String c rest /\ rest <> EmptyString
                 /\ all_spaces rest = true /\ is_command l = true
                 /\ ends_with_backslash l = false.
Proof.
  destruct l as [|c rest]; [discriminate|]. unfold blank_command.
  intros H. apply andb_prop in H as [H Hsp]. apply andb_prop in H as [Hc Hne].
  apply negb_true_iff in Hne. apply String.eqb_neq in Hne.
  exists c, rest. repeat split; try assumption.
  - unfold is_command. simpl starts_with_sigil. rewrite Hc.
    destruct rest; [contradiction | reflexivity].
  - unfold ends_with_backslash. rewrite last_byte_cons by assumption.
    now rewrite all_spaces_last_byte.
Qed.

Lemma joinLine_one_line (lines : list string) (i : nat) (l : string)
    (used : gset Z) :
  lines !! i = Some l -> l <> EmptyString -> ends_with_backslash l = false ->
  joinLine lines i used = Ok l (Insert i used).
Proof.
  intros Hl Hne Hends.
  pose proof (joinLine_from_line lines i l used Hl Hne) as H.
  rewrite H, (drop_S _ _ _ Hl). simpl. rewrite Hends.
  rewrite line_range_S, line_range_0. unfold Insert. f_equal. set_solver.
Qed.

Lemma Parse_for_used (W : World) (msg : option Message) (n : nat)
    (execute : bool) (lines : list string) (i : nat) (err : option error)
    (st : State) :
  Has (usedLines st) i = true ->
  Parse_for W msg (S n) execute lines i err st
  = Parse_for W msg n execute lines (S i) err st.
Proof. intros H. simpl. unfold bind, get. now rewrite H. Qed.

Lemma Parse_for_other (W : World) (msg : option Message) (n : nat)
    (execute : bool) (lines : list string) (i : nat) (err : option error)
    (st : State) (l : string) :
  lines !! i = Some l -> is_command l = false ->
  Parse_for W msg (S n) execute lines i err st
  = Parse_for W msg n execute lines (S i) err st.
Proof.
  intros Hl Hc. simpl. unfold bind, get. rewrite Hl, Hc.
  now destruct (Has (usedLines st) i).
Qed.

Lemma Parse_for_command (W : World) (msg : option Message) (n : nat)
    (execute : bool) (lines : list string) (i : nat) (err : option error)
    (st : State) (l : string) :
  Has (usedLines st) i = false -> lines !! i = Some l ->
  is_command l = true ->
  Parse_for W msg (S n) execute lines i err st
  = bind (run_joinLine lines i) (after_join W msg n execute lines i err) st.
Proof.
  intros Hu Hl Hc. simpl. unfold bind at 1. unfold get.
  rewrite Hu, Hl, Hc. reflexivity.
Qed.

Lemma Parse_for_skip (W : World) (msg : option Message) (execute : bool)
    (lines : list string) (k : nat) :
  forall (n i : nat) (err : option error) (st : State),
    (forall j l, i <= j < i + k -> lines !! j = Some l ->
                 is_command l = false) ->
    i + k <= length lines ->
    Parse_for W msg (k + n) execute lines i err st
    = Parse_for W msg n execute lines (i + k) err st.
Proof.
  induction k as [|k IH]; intros n i err st Hpre Hlen.
  - now rewrite Nat.add_0_r.
  - destruct (lookup_lt_is_Some_2 lines i ltac:(lia)) as [l Hl].
    change (S k + n) with (S (k + n)).
    rewrite (Parse_for_other _ _ _ _ _ _ _ _ l Hl)
      by (apply (Hpre i); [lia | exact Hl]).
    rewrite IH; [f_equal; lia | | lia].
    intros j l' Hj. apply Hpre. lia.
Qed.

(** C3, amended.  When the scan of [Parse] arrives at a line made of a sigil
    and then of spaces only, and the line is not marked as used, [Parse]
    panics, whatever [execute] is: the loop that skips the spaces empties
    the command and reads its first byte.  The scan does arrive there when
    no earlier line is a command line. *)
Theorem Parse_panics_on_blank_command (W : World) (msg : option Message)
    (execute : bool) :
  (forall (n : nat) (lines : list string) (lineNum : nat)
          (err : option error) (st : State) (l : string),
      lines !! lineNum = Some l -> blank_command l = true ->
      Has (usedLines st) lineNum = false ->
      Parse_for W msg (S n) execute lines lineNum err st
      = Panic (set_usedLines (Insert lineNum (usedLines st)) st))
  /\ (forall (pre : list string) (l : string) (post : list string)
             (st : State),
        Forall (fun x => is_command x = false) pre ->
        blank_command l = true ->
        Has (usedLines st) (length pre) = false ->
        Parse W msg execute (pre ++ l :: post)%list st
        = Panic (set_usedLines (Insert (length pre) (usedLines st))
                   (set_status no_flags st))).
Proof.
  assert (Hloop : forall n lines lineNum err st l,
      lines !! lineNum = Some l -> blank_command l = true ->
      Has (usedLines st) lineNum = false ->
      Parse_for W msg (S n) execute lines lineNum err st
      = Panic (set_usedLines (Insert lineNum (usedLines st)) st)).
  { intros n lines i err st l Hl Hb Hu.
    destruct (blank_command_inv l Hb) as (c & rest & -> & Hne & Hsp & Hc & He).
    rewrite (Parse_for_command _ _ _ _ _ _ _ _ _ Hu Hl Hc).
    unfold bind, run_joinLine, zoom.
    rewrite (joinLine_one_line _ _ _ _ Hl) by (discriminate || assumption).
    simpl. now rewrite (skip_spaces_all_spaces _ Hsp). }
  split; [exact Hloop|].
  intros pre l post st Hpre Hb Hu.
  unfold Parse, bind, modify_status, modify.
  rewrite length_app. simpl length.
  rewrite (Parse_for_skip W msg execute _ (length pre)).
  - change (0 + length pre) with (length pre).
    rewrite (Hloop _ _ _ _ _ l); [reflexivity | | assumption | exact Hu].
    now rewrite lookup_app_r, Nat.sub_diag by lia.
  - intros j x Hj Hx. rewrite lookup_app_l in Hx by lia.
    rewrite Forall_forall in Hpre. apply Hpre.
    eapply list_elem_of_lookup_2. exact Hx.
  - rewrite length_app. simpl. lia.
Qed.

Lemma Parse_panics_on_blank_command_witness :
  Parse quiet None true (["x := 1"] ++ "% " :: ["!ls"])%list start
  = Panic (set_usedLines (Insert 1 ∅) start)
  /\ Parse_for quiet None 1 false ["%  "] 0 None start
     = Panic (set_usedLines (Insert 0 ∅) start).
Proof.
  destruct (Parse_panics_on_blank_command quiet None true) as [_ Htop].
  destruct (Parse_panics_on_blank_command quiet None false) as [Hloop _].
  split.
  - exact (Htop ["x := 1"] "% " ["!ls"] start
             ltac:(repeat constructor) eq_refl eq_refl).
  - exact (Hloop 0 ["%  "] 0 None start "%  " eq_refl eq_refl eq_refl).
Defined.

(** C3 as stated fails: a line made of a sigil and spaces that continues
    the command of the line before it is never scanned, and [Parse]
    returns. *)
Lemma blank_continuation_line_no_panic :
  ~ (forall (W : World) (msg : option Message) (execute : bool)
            (lines : list string) (st : State) (l : string),
        In l lines -> blank_command l = true ->
        is_panic (Parse W msg execute lines st) = true).
Proof.
  intros H.
  specialize (H quiet None false ["!ls \"; "% "] start "% ").
  assert (Hin : In "% " ["!ls \"; "% "]) by (right; left; reflexivity).
  specialize (H Hin eq_refl). vm_compute in H. discriminate.
Qed.

(** ** The file-writing directive *)

Lemma parseCmdBody_for_body (ls : list string) :
  forall (lines : list string) (i : nat) (body : string) (used : gset Z),
    drop i lines = ls ->
    parseCmdBody_for (length ls) lines i body used
    = (body +:+ body_text (body_lines ls),
       line_range i (length (body_lines ls)) ∪ used).
Proof.
  induction ls as [|l ls IH]; intros lines i body used Hdrop.
  - simpl. rewrite app_empty_r, line_range_0. f_equal. set_solver.
  - apply drop_cons_inv in Hdrop as [Hl Hdrop].
    simpl. rewrite Hl. destruct (starts_with_sigil l).
    + simpl. rewrite app_empty_r, line_range_0. f_equal. set_solver.
    + rewrite (IH _ _ _ _ Hdrop). simpl length. rewrite line_range_S.
      simpl body_text. unfold Insert. f_equal.
      * now rewrite !app_assoc'.
      * set_solver.
Qed.

Lemma parseCmdBody_body (lines : list string) (i : nat) (used : gset Z) :
  parseCmdBody lines i used
  = (body_text (body_lines (drop (S i) lines)),
     line_range (S i) (length (body_lines (drop (S i) lines)))
       ∪ Insert i used).
Proof.
  unfold parseCmdBody. rewrite <- length_drop.
  now rewrite (parseCmdBody_for_body (drop (S i) lines) lines (S i)).
Qed.

Lemma execWriteFile_trace (W : World) (args : list string) (body : string) (st : State) :
  let name := written_name W args (goExec st) in
  let opened :=
    (trace st ++ [OpenFile name (write_flags (append_given W args)) 438])%list
  in
  let wrote := (opened ++ [WriteString name body])%list in
  let told :=
    (wrote ++ [PublishWriteStream StreamStdout
                 (Lit ("write to " +:+ name +:+ " success" +:+ nl))])%list in
  execWriteFile W args body st
  = match reply_err W opened with
    | Some e => Ok (Some e) (set_trace opened st)
    | None =>
        match reply_err W wrote with
        | Some e => Ok (Some e) (set_trace (wrote ++ [Close name])%list st)
        | None =>
            Ok (reply_err W told) (set_trace (told ++ [Close name])%list st)
        end
    end.
Proof.
  unfold execWriteFile, written_name, append_given, write_flags.
  unfold call_err, call_. unfold bind, get, call, ret. cbn [trace set_trace].
  destruct (bool_decide _); cbn [trace set_trace];
    (destruct (reply_err W _); [reflexivity|]);
    (destruct (reply_err W _); reflexivity).
Qed.

(** A cell that writes a file and then runs a shell command. *)
Example Parse_writefile_run :
  let out :=
    Parse quiet (Some a_message) true
      ["%writefile out.txt"; "hello"; "world"; "!ls"; "x"] start in
  out = Ok None (state_of out)
  /\ usedLines (state_of out) = {[ 0%Z; 1%Z; 2%Z; 3%Z ]}
  /\ trace (state_of out)
     = [OpenFile "out.txt" 578 438;
        WriteString "out.txt" ("hello" +:+ nl +:+ "world" +:+ nl);
        PublishWriteStream StreamStdout
          (Lit ("write to out.txt success" +:+ nl));
        Close "out.txt";
        Exec "/bin/bash" ["-c"; "ls"] 7 "" NoInput;
        AutoTrack].
Proof. vm_compute. repeat split. Qed.

(** ** Directives *)

Lemma skip_spaces_Some (s t : string) :
  skip_spaces s = Some t -> (String.length t =? 0)%nat = false.
Proof.
  induction s as [|c s IH]; [discriminate|]. simpl.
  destruct (byte_eqb c byte_space); [exact IH|].
  intros H. injection H as <-. reflexivity.
Qed.

Lemma one_of_cons (a b : string) (l : list string) :
  one_of a (b :: l) = false -> str_eqb a b = false /\ one_of a l = false.
Proof. simpl. apply orb_false_elim. Qed.

(** The default case of the [switch] of [execInternal]. *)
Lemma execInternal_unknown (W : World) (msg : option Message)
    (cmd name : string) (rest : list string) (st : State) :
  splitCmd cmd = name :: rest ->
  one_of name directives = false ->
  let warned :=
    (trace st ++ [PublishWriteStream StreamStderr
                    (Sprintf unknown_format [VStr name])])%list in
  let logged :=
    match reply_err W warned with
    | Some e =>
        (warned ++ [KlogErrorf
           ("Error while reporting back on unimplemented message command "
              +:+ dq +:+ "%%%s" +:+ dq +:+ " kernel: %+v")
           [AVal (VStr name); AErr e]])%list
    | None => warned
    end in
  execInternal W msg cmd st = Ok None (set_trace logged st).
Proof.
  intros Hsplit Hname warned logged. unfold execInternal. rewrite Hsplit.
  unfold directives in Hname.
  repeat (apply one_of_cons in Hname as [? Hname]).
  cbn [one_of].
  repeat match goal with
         | H : str_eqb name _ = false |- _ => rewrite H; clear H
         end.
  cbn [orb].
  unfold log_if_err, call_err, call_. unfold bind, call, ret.
  cbn [trace set_trace]. fold warned. subst logged.
  destruct (reply_err W warned); reflexivity.
Qed.

(** C6.  A directive whose name is not recognized does not stop the cell:
    [execInternal] publishes the warning with the name on the error stream
    and returns nil, and [Parse] goes on with the next line. *)
Theorem unknown_directive_goes_on (W : World) (msg : option Message)
    (n : nat) (lines : list string) (lineNum : nat) (err : option error)
    (st : State) (l raw cmd name : string) (rest : list string) :
  lines !! lineNum = Some l -> is_command l = true ->
  Has (usedLines st) lineNum = false ->
  joined (drop lineNum lines) = String byte_percent raw ->
  skip_spaces raw = Some cmd ->
  splitCmd cmd = name :: rest ->
  one_of name ("writefile" :: directives) = false ->
  let used :=
    line_range lineNum (consumed (drop lineNum lines)) ∪ usedLines st in
  let warned :=
    (trace st ++ [PublishWriteStream StreamStderr
                    (Sprintf unknown_format [VStr name])])%list in
  exists logged,
    (logged = warned \/ exists e, logged = (warned ++ [e])%list)
    /\ execInternal W msg cmd st = Ok None (set_trace logged st)
    /\ Parse_for W msg (S n) true lines lineNum err st
       = Parse_for W msg n true lines (S lineNum) None
           (set_trace logged (set_usedLines used st)).
Proof.
  intros Hl Hc Hu Hjoin Hskip Hsplit Hname used warned.
  apply one_of_cons in Hname as [Hwf Hname].
  pose proof (execInternal_unknown W msg cmd name rest) as Hexec.
  set (logged := match reply_err W warned with
                 | Some e =>
                     (warned ++ [KlogErrorf
                        ("Error while reporting back on unimplemented message command "
                           +:+ dq +:+ "%%%s" +:+ dq +:+ " kernel: %+v")
                        [AVal (VStr name); AErr e]])%list
                 | None => warned
                 end).
  exists logged. split; [|split].
  - subst logged. destruct (reply_err W warned); eauto.
  - exact (Hexec st Hsplit Hname).
  - rewrite (Parse_for_command _ _ _ _ _ _ _ _ _ Hu Hl Hc).
    assert (Hne : l <> EmptyString) by (intros ->; discriminate).
    pose proof (joinLine_from_line lines lineNum l (usedLines st) Hl Hne)
      as Hj.
    unfold bind at 1. unfold run_joinLine, zoom. rewrite Hj, Hjoin.
    unfold after_join. rewrite Hskip, (skip_spaces_Some _ _ Hskip).
    unfold run_command.
    replace (byte_eqb byte_percent byte_percent) with true by reflexivity.
    rewrite Hsplit, Hwf. unfold bind. subst used.
    rewrite (Hexec (set_usedLines _ st) Hsplit Hname).
    reflexivity.
Qed.

Lemma unknown_directive_goes_on_witness :
  Parse_for quiet None 2 true ["%frobnicate  now \"; "please"; "%autoget"]
    0 None start
  = Parse_for quiet None 1 true ["%frobnicate  now \"; "please"; "%autoget"]
      1 None
      (set_trace
         [PublishWriteStream StreamStderr
            (Sprintf unknown_format [VStr "frobnicate"])]
         (set_usedLines {[ 0%Z; 1%Z ]} start)).
Proof.
  destruct (unknown_directive_goes_on quiet None 1
              ["%frobnicate  now \"; "please"; "%autoget"] 0 None start
              "%frobnicate  now \" "frobnicate  now  please"
              "frobnicate  now  please" "frobnicate" ["now"; "please"]
              eq_refl eq_refl eq_refl eq_refl eq_refl eq_refl eq_refl)
    as (logged & [-> | [e ->]] & Hexec & Hparse).
  - rewrite Hparse. vm_compute. reflexivity.
  - vm_compute in Hexec. discriminate.
Defined.

(** A cell with an unknown directive: the shell command after it runs. *)
Example Parse_unknown_run :
  Parse quiet (Some a_message) true ["%frobnicate now"; "!ls"] start
  = Ok None
      (set_trace
         [PublishWriteStream StreamStderr
            (Sprintf unknown_format [VStr "frobnicate"]);
          Exec "/bin/bash" ["-c"; "ls"] 7 "" NoInput;
          AutoTrack]
         (set_usedLines {[ 0%Z; 1%Z ]} start)).
Proof. vm_compute. reflexivity. Qed.

(** ** The input flags and the shell *)

Lemma execShell_run (W : World) (m : Message) (c : ascii) (rest : string)
    (st : State) :
  let script := if byte_eqb c byte_star then rest else String c rest in
  let dir :=
    if byte_eqb c byte_star then TempDir (goExec st) else EmptyString in
  let mode :=
    if withInputs (status st) then WithInputs 200
    else if withPassword (status st) then WithPassword 200
    else NoInput in
  let ran :=
    (trace st ++ [Exec "/bin/bash" ["-c"; script] (ExecCounter m) dir
                    mode])%list in
  exists st',
    execShell W (Some m) (String c rest) st = Ok (reply_err W ran) st'
    /\ status st' = no_flags
    /\ trace st' = ran
    /\ goExec st' = goExec st
    /\ usedLines st' = usedLines st.
Proof.
  intros script dir mode ran. subst script dir mode ran.
  destruct st as [u [wi wp] g t].
  unfold execShell, bash, modify_status, call_err.
  unfold bind, get, modify, call, ret.
  cbn [status goExec trace usedLines withInputs withPassword set_status
       set_trace].
  destruct wi; [|destruct wp]; eexists; (split; [reflexivity|]);
    cbn [status goExec trace usedLines]; repeat split.
Qed.

Lemma execInternal_with_inputs (W : World) (msg : option Message)
    (st : State) (allowInput : bool) :
  allow_stdin msg = Some allowInput ->
  allowInput = true \/ status st = no_flags ->
  execInternal W msg "with_inputs" st
  = Ok None
      (set_status {| withInputs := true;
                     withPassword := withPassword (status st) |} st)
  /\ execInternal W msg "with_password" st
     = Ok None
         (set_status {| withInputs := withInputs (status st);
                        withPassword := true |} st).
Proof.
  intros Hallow Hok.
  assert (Hcond : negb allowInput
                  && (withInputs (status st) || withPassword (status st))
                  = false).
  { destruct Hok as [-> | ->]; [reflexivity|]. simpl. apply andb_false_r. }
  split.
  - change (execInternal W msg "with_inputs" st)
      with (with_input_flag msg "with_inputs"
              (fun c => {| withInputs := true;
                           withPassword := withPassword c |}) st).
    unfold with_input_flag. rewrite Hallow.
    unfold bind, get. rewrite Hcond. reflexivity.
  - change (execInternal W msg "with_password" st)
      with (with_input_flag msg "with_password"
              (fun c => {| withInputs := withInputs c;
                           withPassword := true |}) st).
    unfold with_input_flag. rewrite Hallow.
    unfold bind, get. rewrite Hcond. reflexivity.
Qed.

(** A cell that asks for inputs and runs two shell commands. *)
Example Parse_with_inputs_run :
  trace (state_of
           (Parse quiet (Some a_message) true
              ["%with_password"; "%with_inputs"; "!read x"; "!*pwd"] start))
  = [Exec "/bin/bash" ["-c"; "read x"] 7 "" (WithInputs 200); AutoTrack;
     Exec "/bin/bash" ["-c"; "pwd"] 7 "/tmp/gonb" NoInput; AutoTrack].
Proof. vm_compute. reflexivity. Qed.

(** ** The heartbeat probe *)

(** C8, amended.  [%widgets_hb] sends the heartbeat with a timeout of one
    second.  An error of the probe is returned, and nothing is published.
    Otherwise, when no reply came the timed-out report is published, and
    when one came the pong report; what the publishing returns, an error
    included, is returned. *)
Theorem widgets_hb_probe (W : World) (msg : option Message) (st : State) :
  let probed := (trace st ++ [SendHeartbeatAndWait 1000000000])%list in
  let html :=
    if reply_bool W probed then "Heartbeat pong received back."
    else timed_out_html in
  let published := (probed ++ [PublishHtml html])%list in
  execInternal W msg "widgets_hb" st
  = match reply_err W probed with
    | Some e => Ok (Some e) (set_trace probed st)
    | None => Ok (reply_err W published) (set_trace published st)
    end.
Proof.
  intros probed html published. subst probed html published.
  unfold execInternal.
  replace (splitCmd "widgets_hb") with ["widgets_hb"] by reflexivity.
  cbn [one_of]. 
  replace (str_eqb "widgets_hb" "%") with false by reflexivity.
  replace (str_eqb "widgets_hb" "main") with false by reflexivity.
  replace (str_eqb "widgets_hb" "args") with false by reflexivity.
  replace (str_eqb "widgets_hb" "test") with false by reflexivity.
  replace (str_eqb "widgets_hb" "wasm") with false by reflexivity.
  replace (str_eqb "widgets_hb" "widgets") with false by reflexivity.
  replace (str_eqb "widgets_hb" "widgets_hb") with true by reflexivity.
  cbn [orb]. unfold call_err. unfold bind, call, ret.
  cbn [trace set_trace].
  replace (1 * Second)%Z with 1000000000%Z by reflexivity.
  destruct (reply_err W _); [reflexivity|].
  destruct (reply_bool W _); reflexivity.
Qed.

(** C8 as stated fails: when the probe gets no reply and publishing the
    report fails, the error returned is the one of the publishing, not one
    of the probe. *)
Lemma widgets_hb_returns_publish_error :
  ~ (forall (W : World) (msg : option Message) (st st' : State)
            (e : error),
        execInternal W msg "widgets_hb" st = Ok (Some e) st' ->
        reply_err W (trace st ++ [SendHeartbeatAndWait (1 * Second)])%list
        = Some e).
Proof.
  intros H.
  specialize (H no_html None start
                (set_trace [SendHeartbeatAndWait 1000000000;
                            PublishHtml timed_out_html] start)
                (Foreign "publish failed") eq_refl).
  vm_compute in H. discriminate.
Qed.

(** ** [%env] *)

Lemma splitCmd_env_one (k : ascii) (w : string) :
  plain k = true -> all_plain w = true ->
  splitCmd ("env " +:+ String k w) = ["env"; String k w].
Proof.
  intros Hk Hw.
  change (splitCmd ("env " +:+ String k w))
    with (splitCmd_for (String k w) false false EmptyString ["env"]).
  rewrite <- (app_empty_r (String k w)) at 1.
  now rewrite splitCmd_for_word.
Qed.

Lemma splitCmd_env_two (k c : ascii) (w : string) :
  plain k = true -> plain c = true -> all_plain w = true ->
  splitCmd ("env " +:+ String k (" " +:+ String c w))
  = ["env"; String k EmptyString; String c w].
Proof.
  intros Hk Hc Hw.
  change (splitCmd ("env " +:+ String k (" " +:+ String c w)))
    with (splitCmd_for (String k EmptyString +:+ String " " (String c w))
            false false EmptyString ["env"]).
  rewrite splitCmd_for_word by (assumption || reflexivity).
  change (splitCmd_for (String c w) false false EmptyString
            ["env"; String k EmptyString]
          = ["env"; String k EmptyString; String c w]).
  rewrite <- (app_empty_r (String c w)) at 1.
  now rewrite splitCmd_for_word.
Qed.

Lemma Index_byte_second (k : ascii) (v : string) :
  (1 <? Index_byte (String k (String byte_equal v)) byte_equal)%Z = false.
Proof.
  unfold Index_byte. simpl.
  destruct (byte_eqb k byte_equal); reflexivity.
Qed.

Lemma execInternal_env_one (W : World) (msg : option Message)
    (cmd p1 : string) (st : State) :
  splitCmd cmd = ["env"; p1] ->
  (1 <? Index_byte p1 byte_equal)%Z = false ->
  execInternal W msg cmd st = Ok (Some (Errorf usage_env [VInt 1])) st.
Proof.
  intros Hsplit Hidx. unfold execInternal. rewrite Hsplit.
  cbn [one_of].
  replace (str_eqb "env" "%") with false by reflexivity.
  replace (str_eqb "env" "main") with false by reflexivity.
  replace (str_eqb "env" "args") with false by reflexivity.
  replace (str_eqb "env" "test") with false by reflexivity.
  replace (str_eqb "env" "wasm") with false by reflexivity.
  replace (str_eqb "env" "widgets") with false by reflexivity.
  replace (str_eqb "env" "widgets_hb") with false by reflexivity.
  replace (str_eqb "env" "env") with true by reflexivity.
  cbn [orb]. rewrite Hidx. reflexivity.
Qed.

Lemma execInternal_env_two (W : World) (msg : option Message)
    (cmd key val : string) (st : State) :
  splitCmd cmd = ["env"; key; val] ->
  let set := (trace st ++ [Setenv key val])%list in
  let told :=
    (set ++ [PublishWriteStream StreamStdout
               (Sprintf ("Set: %s=%q" +:+ nl) [VStr key; VStr val])])%list in
  execInternal W msg cmd st
  = match reply_err W set with
    | Some e =>
        Ok (Some (Wrapf e "`%%env %q %q` failed" [VStr key; VStr val]))
          (set_trace set st)
    | None =>
        match reply_err W told with
        | Some e =>
            Ok None
              (set_trace (told ++ [KlogErrorf "Failed to output: %+v"
                                     [AErr e]])%list st)
        | None => Ok None (set_trace told st)
        end
    end.
Proof.
  intros Hsplit set told. subst set told. unfold execInternal. rewrite Hsplit.
  cbn [one_of].
  replace (str_eqb "env" "%") with false by reflexivity.
  replace (str_eqb "env" "main") with false by reflexivity.
  replace (str_eqb "env" "args") with false by reflexivity.
  replace (str_eqb "env" "test") with false by reflexivity.
  replace (str_eqb "env" "wasm") with false by reflexivity.
  replace (str_eqb "env" "widgets") with false by reflexivity.
  replace (str_eqb "env" "widgets_hb") with false by reflexivity.
  replace (str_eqb "env" "env") with true by reflexivity.
  cbn [orb]. unfold log_if_err, call_err, call_. unfold bind, call, ret.
  cbn [trace set_trace].
  destruct (reply_err W _); [reflexivity|].
  destruct (reply_err W _); reflexivity.
Qed.

(** ** The scan without execution *)

Lemma consumed_le (ls : list string) : consumed ls <= length ls.
Proof.
  induction ls as [|l ls IH]; simpl; [lia|].
  destruct (ends_with_backslash l); lia.
Qed.

Lemma consumed_inner (ls : list string) :
  forall (j : nat) (l : string),
    S j < consumed ls -> ls !! j = Some l -> ends_with_backslash l = true.
Proof.
  induction ls as [|x ls IH]; intros j l Hj Hl; simpl in Hj; [lia|].
  destruct (ends_with_backslash x) eqn:Hx; [|lia].
  destruct j as [|j]; simpl in Hl.
  - now injection Hl as <-.
  - apply (IH j); [lia | exact Hl].
Qed.

Lemma consumed_last (ls : list string) :
  forall (j : nat) (l : string),
    S j = consumed ls -> ls !! j = Some l -> ends_with_backslash l = true ->
    consumed ls = length ls.
Proof.
  induction ls as [|x ls IH]; intros j l Hj Hl Hends; simpl in *; [lia|].
  destruct (ends_with_backslash x) eqn:Hx.
  - destruct j as [|j]; simpl in Hl.
    + destruct ls; simpl in *; [reflexivity | destruct (ends_with_backslash s); lia].
    + f_equal. apply (IH j l); [lia | exact Hl | exact Hends].
  - assert (j = 0) by lia. subst j. simpl in Hl. injection Hl as <-.
    congruence.
Qed.

Lemma consumed_pos (l : string) (ls : list string) : 1 <= consumed (l :: ls).
Proof. simpl. destruct (ends_with_backslash l); lia. Qed.

Lemma skip_spaces_text (a b : string) :
  all_spaces a = false -> exists t, skip_spaces (a +:+ b) = Some t.
Proof.
  induction a as [|c a IH]; [discriminate|]. simpl all_spaces.
  change (String c a +:+ b) with (String c (a +:+ b)). simpl skip_spaces.
  destruct (byte_eqb c byte_space); simpl; [exact IH | eauto].
Qed.

Lemma joined_has_text (l : string) (ls : list string) :
  is_command l = true -> has_text l = true ->
  exists c s t, joined (l :: ls) = String c s /\ skip_spaces s = Some t.
Proof.
  destruct l as [|c r]; [discriminate|]. unfold is_command, has_text.
  intros Hc Ht. apply andb_prop in Hc as [Hlen _].
  assert (Hr : r <> EmptyString) by (intros ->; discriminate).
  apply negb_true_iff in Ht.
  change (joined (String c r :: ls))
    with (if ends_with_backslash (String c r)
          then drop_last (String c r) +:+ " " +:+ joined ls
          else String c r).
  unfold ends_with_backslash at 1.
  rewrite last_byte_cons by assumption. fold (ends_with_backslash r).
  destruct (ends_with_backslash r).
  - rewrite drop_last_cons by assumption.
    change (String c (drop_last r) +:+ " " +:+ joined ls)
      with (String c (drop_last r +:+ " " +:+ joined ls)).
    destruct (skip_spaces_text _ (" " +:+ joined ls) Ht) as [t Hs]. eauto.
  - rewrite <- (app_empty_r r).
    destruct (skip_spaces_text _ EmptyString Ht) as [t Hs]. eauto.
Qed.

Lemma marked_by_scan_refl (lines : list string) (u : gset Z) :
  marked_by_scan lines u u.
Proof. split; [reflexivity|]. intros z Hz Hnz. contradiction. Qed.

Lemma continues_mono (lines : list string) (u u' : gset Z) (i : nat) :
  u ⊆ u' -> continues lines u i -> continues lines u' i.
Proof.
  intros Hsub (l' & H1 & H2 & H3 & H4). exists l'.
  repeat split; try assumption. now apply Hsub.
Qed.

Lemma marked_by_scan_trans (lines : list string) (u0 u1 u2 : gset Z) :
  marked_by_scan lines u0 u1 -> marked_by_scan lines u1 u2 ->
  marked_by_scan lines u0 u2.
Proof.
  intros [S1 M1] [S2 M2]. split; [now transitivity u1|].
  intros z Hz Hnz. destruct (decide (z ∈ u1)) as [Hz1 | Hz1].
  - destruct (M1 z Hz1 Hnz) as (i & l & -> & Hl & [Hc | Hk]);
      exists i, l; repeat split; try assumption; [now left | right].
    now apply (continues_mono lines u1).
  - exact (M2 z Hz Hz1).
Qed.

Lemma closed_by_scan_refl (lines : list string) (u : gset Z) :
  closed_by_scan lines u u.
Proof. intros j l _ Hin Hnin. contradiction. Qed.

Lemma closed_by_scan_trans (lines : list string) (u0 u1 u2 : gset Z) :
  u0 ⊆ u1 -> u1 ⊆ u2 ->
  closed_by_scan lines u0 u1 -> closed_by_scan lines u1 u2 ->
  closed_by_scan lines u0 u2.
Proof.
  intros S1 S2 C1 C2 j l Hl Hin Hnin Hends Hlen.
  destruct (decide (Z.of_nat j ∈ u1)) as [Hj | Hj].
  - apply S2. now apply (C1 j l).
  - now apply (C2 j l).
Qed.

Lemma joined_range_marked (lines : list string) (i : nat) (l : string)
    (u : gset Z) :
  lines !! i = Some l -> is_command l = true ->
  marked_by_scan lines u (line_range i (consumed (drop i lines)) ∪ u)
  /\ closed_by_scan lines u (line_range i (consumed (drop i lines)) ∪ u)
  /\ Z.of_nat i ∈ line_range i (consumed (drop i lines)) ∪ u.
Proof.
  intros Hl Hc.
  pose proof (consumed_le (drop i lines)) as Hle. rewrite length_drop in Hle.
  pose proof (lookup_lt_Some _ _ _ Hl) as Hlt.
  assert (Hpos : 1 <= consumed (drop i lines)).
  { rewrite (drop_S _ _ _ Hl). apply consumed_pos. }
  split; [split|split].
  - apply union_subseteq_r.
  - intros z Hz Hnz. apply elem_of_union in Hz as [Hz | Hz]; [|contradiction].
    apply elem_of_line_range in Hz as (j & -> & Hj).
    destruct (lookup_lt_is_Some_2 lines j ltac:(lia)) as [x Hx].
    exists j, x. split; [reflexivity|]. split; [exact Hx|].
    destruct (decide (j = i)) as [-> | Hne].
    + left. congruence.
    + right.
      destruct (lookup_lt_is_Some_2 lines (j - 1) ltac:(lia)) as [y Hy].
      exists y. split; [lia|]. split; [exact Hy|]. split.
      * apply (consumed_inner (drop i lines) (j - 1 - i)); [lia|].
        rewrite lookup_drop. replace (i + (j - 1 - i)) with (j - 1) by lia.
        exact Hy.
      * apply elem_of_union. left. apply elem_of_line_range.
        exists (j - 1). split; [reflexivity | lia].
  - intros j x Hx Hin Hnin Hends Hlen.
    apply elem_of_union in Hin as [Hin | Hin]; [|contradiction].
    apply elem_of_line_range in Hin as (j' & Hj' & Hj).
    apply Nat2Z.inj in Hj'. subst j'.
    apply elem_of_union. left. apply elem_of_line_range.
    exists (S j). split; [reflexivity|].
    destruct (decide (S (j - i) = consumed (drop i lines))) as [Hlast | Hnl];
      [|lia].
    assert (Hd : drop i lines !! (j - i) = Some x).
    { rewrite lookup_drop. replace (i + (j - i)) with j by lia. exact Hx. }
    pose proof (consumed_last _ _ _ Hlast Hd Hends) as Hall.
    rewrite length_drop in Hall. lia.
  - apply elem_of_union. left. apply elem_of_line_range.
    exists i. split; [reflexivity | lia].
Qed.

Lemma Parse_for_command_no_execute (W : World) (msg : option Message)
    (n : nat) (lines : list string) (i : nat) (err : option error)
    (st : State) (l : string) :
  Has (usedLines st) i = false -> lines !! i = Some l ->
  is_command l = true ->
  Parse_for W msg (S n) false lines i err st
  = let st1 :=
      set_usedLines
        (line_range i (consumed (drop i lines)) ∪ usedLines st) st in
    match joined (drop i lines) with
    | EmptyString => Panic st1
    | String _ s =>
        match skip_spaces s with
        | None => Panic st1
        | Some _ => Parse_for W msg n false lines (S i) err st1
        end
    end.
Proof.
  intros Hu Hl Hc.
  rewrite (Parse_for_command _ _ _ _ _ _ _ _ _ Hu Hl Hc).
  assert (Hne : l <> EmptyString) by (intros ->; discriminate).
  pose proof (joinLine_from_line lines i l (usedLines st) Hl Hne) as Hj.
  unfold bind, run_joinLine, zoom. rewrite Hj. unfold after_join.
  destruct (joined (drop i lines)) as [|c s]; [reflexivity|].
  destruct (skip_spaces s) as [cmd|] eqn:Eskip; [|reflexivity].
  now rewrite (skip_spaces_Some _ _ Eskip).
Qed.

Lemma Parse_for_no_execute (W : World) (msg : option Message)
    (lines : list string) (n : nat) :
  forall (i : nat) (err : option error) (st : State),
    i + n = length lines ->
    exists u,
      marked_by_scan lines (usedLines st) u
      /\ (Parse_for W msg n false lines i err st
          = Ok err (set_usedLines u st)
          \/ Parse_for W msg n false lines i err st
             = Panic (set_usedLines u st))
      /\ (commands_have_text lines ->
          Parse_for W msg n false lines i err st
          = Ok err (set_usedLines u st)
          /\ closed_by_scan lines (usedLines st) u
          /\ forall j l, i <= j -> lines !! j = Some l ->
                         is_command l = true -> Z.of_nat j ∈ u).
Proof.
  induction n as [|n IH]; intros i err st Hlen.
  - exists (usedLines st). split; [apply marked_by_scan_refl|].
    assert (E : Parse_for W msg 0 false lines i err st
                = Ok err (set_usedLines (usedLines st) st))
      by (destruct st; reflexivity).
    split; [now left|]. intros _. split; [exact E|].
    split; [apply closed_by_scan_refl|].
    intros j l Hj Hl _. apply lookup_lt_Some in Hl. lia.
  - destruct (lookup_lt_is_Some_2 lines i ltac:(lia)) as [l Hl].
    assert (Hnext : forall st' : State,
        usedLines st ⊆ usedLines st' ->
        (is_command l = true -> Z.of_nat i ∈ usedLines st') ->
        marked_by_scan lines (usedLines st) (usedLines st') ->
        closed_by_scan lines (usedLines st) (usedLines st') ->
        exists u,
          marked_by_scan lines (usedLines st) u
          /\ (Parse_for W msg n false lines (S i) err st'
              = Ok err (set_usedLines u st')
              \/ Parse_for W msg n false lines (S i) err st'
                 = Panic (set_usedLines u st'))
          /\ (commands_have_text lines ->
              Parse_for W msg n false lines (S i) err st'
              = Ok err (set_usedLines u st')
              /\ closed_by_scan lines (usedLines st) u
              /\ forall j x, i <= j -> lines !! j = Some x ->
                             is_command x = true -> Z.of_nat j ∈ u)).
    { intros st' Hsub Hi Hm Hcl.
      destruct (IH (S i) err st' ltac:(lia)) as (u & Hmu & Hor & Hok).
      exists u.
      split; [exact (marked_by_scan_trans _ _ _ _ Hm Hmu)|].
      split; [exact Hor|]. intros HP.
      destruct (Hok HP) as (E & Hc & Hcmd). split; [exact E|].
      destruct Hmu as [Hsub' _].
      split; [exact (closed_by_scan_trans _ _ _ _ Hsub Hsub' Hcl Hc)|].
      intros j x Hj Hx Hcx. destruct (decide (j = i)) as [-> | Hne].
      - apply Hsub', Hi. congruence.
      - apply (Hcmd j x); [lia | exact Hx | exact Hcx]. }
    destruct (Has (usedLines st) i) eqn:Hu.
    + rewrite Parse_for_used by exact Hu.
      apply bool_decide_eq_true in Hu.
      destruct (Hnext st) as (u & H); try reflexivity; try (intros _; exact Hu);
        [apply marked_by_scan_refl | apply closed_by_scan_refl |].
      exists u. exact H.
    + destruct (is_command l) eqn:Hc.
      * rewrite (Parse_for_command_no_execute _ _ _ _ _ _ _ _ Hu Hl Hc).
        destruct (joined_range_marked lines i l (usedLines st) Hl Hc)
          as (Hm & Hcl & Hi).
        set (u1 := line_range i (consumed (drop i lines)) ∪ usedLines st)
          in *.
        destruct (Hnext (set_usedLines u1 st)) as (u & Hmu & Hor & Hok);
          try assumption; [apply Hm | intros _; exact Hi |].
        cbv zeta.
        assert (Htext : commands_have_text lines ->
                        exists c s t, joined (drop i lines) = String c s
                                      /\ skip_spaces s = Some t).
        { intros HP. rewrite (drop_S _ _ _ Hl).
          apply joined_has_text; [exact Hc|].
          apply HP; [|exact Hc]. eapply list_elem_of_lookup_2. exact Hl. }
        destruct (joined (drop i lines)) as [|c s] eqn:Ejoin.
        -- exists u1. split; [exact Hm|]. split; [now right|].
           intros HP. destruct (Htext HP) as (? & ? & ? & E & _).
           discriminate.
        -- destruct (skip_spaces s) as [cmd|] eqn:Eskip.
           ++ exists u. split; [exact Hmu|]. split; [exact Hor | exact Hok].
           ++ exists u1. split; [exact Hm|]. split; [now right|].
              intros HP. destruct (Htext HP) as (? & ? & ? & E & E').
              congruence.
      * rewrite (Parse_for_other _ _ _ _ _ _ _ _ l Hl Hc).
        destruct (Hnext st) as (u & H); try reflexivity; try discriminate;
          [apply marked_by_scan_refl | apply closed_by_scan_refl |].
        exists u. exact H.
Qed.

(** With [execute] false, [Parse] calls no collaborator and changes
    nothing but the set of used lines (and the flags it resets); it never
    returns an error; what it adds to the set are command lines and lines
    that continue a command.  When every command line has a text after its
    sigil, it returns nil, with every command line in the set, and after
    each line it added that ends with a backslash, the next line. *)
Theorem Parse_without_execute (W : World) (msg : option Message)
    (lines : list string) (st : State) :
  exists u,
    (Parse W msg false lines st
     = Ok None (set_usedLines u (set_status no_flags st))
     \/ Parse W msg false lines st
        = Panic (set_usedLines u (set_status no_flags st)))
    /\ trace (state_of (Parse W msg false lines st)) = trace st
    /\ goExec (state_of (Parse W msg false lines st)) = goExec st
    /\ marked_by_scan lines (usedLines st) u
    /\ (commands_have_text lines ->
        Parse W msg false lines st
        = Ok None (set_usedLines u (set_status no_flags st))
        /\ closed_by_scan lines (usedLines st) u
        /\ forall j l, lines !! j = Some l -> is_command l = true ->
                       Z.of_nat j ∈ u).
Proof.
  destruct (Parse_for_no_execute W msg lines (length lines) 0 None
              (set_status no_flags st) eq_refl) as (u & Hm & Hor & Hok).
  change (Parse W msg false lines st)
    with (Parse_for W msg (length lines) false lines 0 None
            (set_status no_flags st)).
  exists u. split; [exact Hor|].
  split; [destruct Hor as [-> | ->]; reflexivity|].
  split; [destruct Hor as [-> | ->]; reflexivity|].
  split; [exact Hm|].
  intros HP. destruct (Hok HP) as (E & Hc & Hcmd).
  split; [exact E|]. split; [exact Hc|].
  intros j l. apply Hcmd. lia.
Qed.

Lemma Parse_without_execute_witness :
  exists u,
    Parse quiet None false ["%writefile f"; "body"; "!ls \"; "-l"] start
    = Ok None (set_usedLines u (set_status no_flags start))
    /\ Z.of_nat 2 ∈ u.
Proof.
  destruct (Parse_without_execute quiet None
              ["%writefile f"; "body"; "!ls \"; "-l"] start)
    as (u & _ & _ & _ & _ & H).
  assert (HP : commands_have_text ["%writefile f"; "body"; "!ls \"; "-l"]).
  { intros l Hl _.
    repeat (apply elem_of_cons in Hl as [-> | Hl]); try reflexivity.
    now apply elem_of_nil in Hl. }
  destruct (H HP) as (E & _ & Hcmd).
  exists u. split; [exact E|]. exact (Hcmd 2 "!ls \" eq_refl eq_refl).
Defined.

(** The body of [%writefile] is marked only when the directive is run. *)
Example Parse_writefile_marks :
  usedLines (state_of (Parse quiet (Some a_message) false
                         ["%writefile f"; "body"; "!ls \"; "-l"] start))
  = {[ 0%Z; 2%Z; 3%Z ]}
  /\ usedLines (state_of (Parse quiet (Some a_message) true
                            ["%writefile f"; "body"; "!ls \"; "-l"] start))
     = {[ 0%Z; 1%Z; 2%Z; 3%Z ]}.
Proof. vm_compute. split; reflexivity. Qed.

(** With [execute] false too, [Parse] is not total: it panics on a command
    made of a sigil and spaces. *)
Lemma Parse_without_execute_not_total :
  ~ (forall (W : World) (msg : option Message) (lines : list string)
            (st : State),
        exists st', Parse W msg false lines st = Ok None st').
Proof.
  intros H. destruct (H quiet None ["% "] start) as [st' E].
  vm_compute in E. discriminate.
Qed.

(** * Further properties *)

(** ** The tokenizer on words and quoted arguments *)

Lemma app_empty_l (s : string) : EmptyString +:+ s = s.
Proof. reflexivity. Qed.

Lemma splitCmd_for_unwords (ws : list string) :
  forall parts : list string,
    Forall (fun w => word w = true) ws ->
    splitCmd_for (unwords ws) false false EmptyString parts
    = (parts ++ ws)%list.
Proof.
  induction ws as [|w ws IH]; intros parts Hws.
  - simpl. now rewrite app_nil_r.
  - apply Forall_cons in Hws as [Hw Hws].
    destruct w as [|c w]; [discriminate|].
    simpl in Hw. apply andb_prop in Hw as [Hc Hw].
    destruct ws as [|w2 ws].
    + change (unwords [String c w]) with (String c w).
      rewrite <- (app_empty_r (String c w)) at 1.
      now rewrite splitCmd_for_word.
    + change (unwords (String c w :: w2 :: ws))
        with (String c w +:+ String " " (unwords (w2 :: ws))).
      rewrite splitCmd_for_word by assumption.
      change (splitCmd_for (unwords (w2 :: ws)) false false EmptyString
                (parts ++ [String c w])
              = parts ++ String c w :: w2 :: ws)%list.
      rewrite IH by assumption. now rewrite <- app_assoc.
Qed.

(** X1.  Splitting plain words joined by single spaces gives the words
    back. *)
Theorem splitCmd_unwords (ws : list string) :
  Forall (fun w => word w = true) ws ->
  splitCmd (unwords ws) = ws.
Proof. intros H. unfold splitCmd. now rewrite splitCmd_for_unwords. Qed.

Lemma splitCmd_unwords_witness :
  splitCmd (unwords ["goflags"; "-tags=x"; "a\b"]) = ["goflags"; "-tags=x"; "a\b"].
Proof.
  apply (splitCmd_unwords ["goflags"; "-tags=x"; "a\b"]).
  repeat constructor.
Defined.

Lemma splitCmd_for_quote_escape (s : string) :
  forall (rest part : string) (parts : list string),
    all_ascii s = true ->
    splitCmd_for (quote_escape s +:+ rest) true true part parts
    = splitCmd_for rest true true (part +:+ s) parts.
Proof.
  induction s as [|c s IH]; intros rest part parts Hs.
  - now rewrite app_empty_r.
  - simpl in Hs. apply andb_prop in Hs as [Hc Hs].
    replace (part +:+ String c s) with ((part +:+ String c EmptyString) +:+ s)
      by now rewrite app_assoc'.
    rewrite <- (IH rest) by assumption.
    simpl quote_escape.
    destruct (isQuote c) eqn:Hq; [|destruct (isEscape c) eqn:He].
    + apply byte_eqb_eq in Hq. subst c. reflexivity.
    + apply byte_eqb_eq in He. subst c. reflexivity.
    + cbn [orb].
      change (String c (quote_escape s) +:+ rest)
        with (String c (quote_escape s +:+ rest)).
      cbn [splitCmd_for negb andb]. rewrite Hq, He. cbn [andb].
      now rewrite fmt_c_ascii.
Qed.

Lemma splitCmd_for_quoted (s rest : string) (parts : list string) :
  all_ascii s = true ->
  splitCmd_for (quoted s +:+ rest) false false EmptyString parts
  = splitCmd_for rest true false s parts.
Proof.
  intros Hs. unfold quoted.
  change (String byte_quote (quote_escape s +:+ dq) +:+ rest)
    with (String byte_quote ((quote_escape s +:+ dq) +:+ rest)).
  rewrite app_assoc'.
  change (splitCmd_for (quote_escape s +:+ dq +:+ rest) true true
            EmptyString parts
          = splitCmd_for rest true false s parts).
  rewrite splitCmd_for_quote_escape by assumption. reflexivity.
Qed.

Lemma splitCmd_for_quoted_args (args : list string) :
  forall parts : list string,
    Forall (fun s => all_ascii s = true) args ->
    splitCmd_for (unwords (quoted <$> args)) false false EmptyString parts
    = (parts ++ args)%list.
Proof.
  induction args as [|s args IH]; intros parts Hargs.
  - simpl. now rewrite app_nil_r.
  - apply Forall_cons in Hargs as [Hs Hargs].
    destruct args as [|s2 args].
    + change (unwords (quoted <$> [s])) with (quoted s).
      rewrite <- (app_empty_r (quoted s)).
      now rewrite splitCmd_for_quoted.
    + change (unwords (quoted <$> s :: s2 :: args))
        with (quoted s +:+ String " " (unwords (quoted <$> s2 :: args))).
      rewrite splitCmd_for_quoted by assumption.
      change (splitCmd_for (unwords (quoted <$> s2 :: args)) false false
                EmptyString (parts ++ [s])
              = parts ++ s :: s2 :: args)%list.
      rewrite IH by assumption. now rewrite <- app_assoc.
Qed.

(** X2.  Any list of ASCII arguments, the empty argument and arguments with
    spaces, quotes and backslashes included, comes back from [splitCmd]
    when each argument is written between quotes, with a backslash before
    its quotes and backslashes. *)
Theorem splitCmd_quoted_args (args : list string) :
  Forall (fun s => all_ascii s = true) args ->
  splitCmd (unwords (quoted <$> args)) = args.
Proof. intros H. unfold splitCmd. now rewrite splitCmd_for_quoted_args. Qed.

Lemma splitCmd_quoted_args_witness :
  splitCmd (unwords (quoted <$> ["args"; ""; "a b\n" +:+ dq +:+ nl]))
  = ["args"; ""; "a b\n" +:+ dq +:+ nl].
Proof.
  apply (splitCmd_quoted_args ["args"; ""; "a b\n" +:+ dq +:+ nl]).
  repeat constructor.
Defined.

(** X3.  A quote that is not closed still gives its part, and a backslash
    that is the last byte inside quotes is dropped. *)
Theorem splitCmd_open_quote (s : string) :
  all_ascii s = true ->
  splitCmd (String byte_quote (quote_escape s)) = [s]
  /\ splitCmd (String byte_quote
                 (quote_escape s +:+ String byte_backslash EmptyString))
     = [s].
Proof.
  intros Hs. unfold splitCmd. split.
  - rewrite <- (app_empty_r (quote_escape s)).
    change (splitCmd_for (quote_escape s +:+ EmptyString) true true
              EmptyString [] = [s]).
    now rewrite splitCmd_for_quote_escape.
  - change (splitCmd_for
              (quote_escape s +:+ String byte_backslash EmptyString)
              true true EmptyString [] = [s]).
    now rewrite splitCmd_for_quote_escape.
Qed.

Lemma splitCmd_open_quote_witness :
  splitCmd (String byte_quote "hello world") = ["hello world"]
  /\ splitCmd (String byte_quote "hello world\") = ["hello world"].
Proof. exact (splitCmd_open_quote "hello world" eq_refl). Defined.

Lemma splitCmd_for_whitespace (s : string) (parts : list string) :
  all_whitespace s = true ->
  splitCmd_for s false false EmptyString parts = parts.
Proof.
  induction s as [|c s IH]; [reflexivity|]. simpl all_whitespace.
  intros H. apply andb_prop in H as [Hc Hs].
  cbn [splitCmd_for negb andb]. rewrite Hc. now apply IH.
Qed.

(** X4.  A command made of spaces, tabs and newlines only has no part, and
    [execInternal] panics on it, reading the name of the directive, before
    it does anything. *)
Theorem execInternal_blank_panics (W : World) (msg : option Message)
    (cmd : string) (st : State) :
  all_whitespace cmd = true ->
  splitCmd cmd = [] /\ execInternal W msg cmd st = Panic st.
Proof.
  intros H.
  assert (E : splitCmd cmd = []) by now apply splitCmd_for_whitespace.
  split; [exact E|]. unfold execInternal. now rewrite E.
Qed.

Lemma execInternal_blank_panics_witness :
  execInternal quiet None (String byte_tab " ") start = Panic start
  /\ is_panic (Parse quiet None true [String byte_percent (String byte_tab " ")] start)
     = true.
Proof.
  destruct (execInternal_blank_panics quiet None (String byte_tab " ") start
              eq_refl) as [_ H].
  split; [exact H | reflexivity].
Defined.

(** ** More on [joinLine] *)

Lemma joinLine_for_no_backslash (n : nat) :
  forall (lines : list string) (i : nat) (acc : string) (u : gset Z)
         (s : string) (u' : gset Z),
    joinLine_for n lines i acc u = Ok s u' ->
    ends_with_backslash acc = false ->
    ends_with_backslash s = false.
Proof.
  induction n as [|n IH]; intros lines i acc u s u' H Hacc.
  - injection H as <- _. exact Hacc.
  - destruct (lines !! i) as [l|] eqn:Hl.
    + rewrite (joinLine_for_step _ _ _ _ _ _ Hl) in H.
      destruct (last_byte (acc +:+ l)) as [c|] eqn:Hc; [|discriminate].
      destruct (byte_eqb c byte_backslash) eqn:Hbs; simpl in H.
      * apply (IH _ _ _ _ _ _ H). unfold ends_with_backslash.
        rewrite last_byte_app by discriminate. reflexivity.
      * injection H as <- _. unfold ends_with_backslash. now rewrite Hc.
    + simpl in H. rewrite Hl in H. discriminate.
Qed.

Lemma joined_first_byte (c : ascii) (r : string) (ls : list string) :
  r <> EmptyString -> exists rest, joined (String c r :: ls) = String c rest.
Proof.
  intros Hr.
  change (joined (String c r :: ls))
    with (if ends_with_backslash (String c r)
          then drop_last (String c r) +:+ " " +:+ joined ls
          else String c r).
  destruct (ends_with_backslash (String c r)); [|eauto].
  rewrite drop_last_cons by assumption.
  exists (drop_last r +:+ " " +:+ joined ls). reflexivity.
Qed.

(** X5.  On a command line, [joinLine] does not panic, and the joined
    command begins with the sigil of the line and does not end with a
    backslash: in [Parse], reading the command type and the rest of the
    command is within bounds, and the [switch] on the type meets one of its
    two cases. *)
Theorem joinLine_command_shape (lines : list string) (i : nat) (l : string)
    (u : gset Z) :
  lines !! i = Some l -> is_command l = true ->
  exists (c : ascii) (rest : string) (u' : gset Z),
    joinLine lines i u = Ok (String c rest) u'
    /\ (c = byte_percent \/ c = byte_bang)
    /\ ends_with_backslash (String c rest) = false.
Proof.
  intros Hl Hc.
  assert (Hne : l <> EmptyString) by (intros ->; discriminate).
  pose proof (joinLine_from_line lines i l u Hl Hne) as Hj.
  destruct l as [|c r]; [contradiction|].
  unfold is_command in Hc. apply andb_prop in Hc as [Hlen Hsig].
  assert (Hr : r <> EmptyString) by (intros ->; discriminate).
  rewrite (drop_S _ _ _ Hl) in Hj.
  destruct (joined_first_byte c r (drop (S i) lines) Hr) as [rest E].
  rewrite E in Hj. exists c, rest. eexists. split; [exact Hj|]. split.
  - simpl in Hsig. apply orb_prop in Hsig as [H | H];
      apply byte_eqb_eq in H; auto.
  - unfold joinLine in Hj.
    apply (joinLine_for_no_backslash _ _ _ _ _ _ _ Hj). reflexivity.
Qed.

Lemma joinLine_command_shape_witness :
  exists (c : ascii) (rest : string) (u' : gset Z),
    joinLine ["!ls \"; "-l \"] 0 ∅ = Ok (String c rest) u'
    /\ (c = byte_percent \/ c = byte_bang)
    /\ ends_with_backslash (String c rest) = false.
Proof.
  exact (joinLine_command_shape ["!ls \"; "-l \"] 0 "!ls \" ∅ eq_refl eq_refl).
Defined.

(** X6.  The bounds of [joinLine]: from an index past the last line it
    returns the empty string and marks nothing; from an empty line it
    panics, the line already marked. *)
Theorem joinLine_bounds (lines : list string) (fromLine : nat)
    (used : gset Z) :
  (length lines <= fromLine ->
   joinLine lines fromLine used = Ok EmptyString used)
  /\ (lines !! fromLine = Some EmptyString ->
      joinLine lines fromLine used = Panic (Insert fromLine used)).
Proof.
  split; [apply joinLine_past_end | apply joinLine_empty_line].
Qed.

Lemma joinLine_bounds_witness :
  joinLine ["!ls"] 1 ∅ = Ok EmptyString ∅
  /\ joinLine ["!ls"; ""] 1 ∅ = Panic (Insert 1 ∅).
Proof.
  split.
  - destruct (joinLine_bounds ["!ls"] 1 ∅) as [H _]. apply H. simpl. lia.
  - destruct (joinLine_bounds ["!ls"; ""] 1 ∅) as [_ H]. now apply H.
Defined.

(** ** What the handlers leave alone *)

Lemma extends_refl (st : State) : extends st st.
Proof.
  repeat split; try reflexivity. exists []. now rewrite app_nil_r.
Qed.

Lemma extends_trans (st1 st2 st3 : State) :
  extends st1 st2 -> extends st2 st3 -> extends st1 st3.
Proof.
  intros (U1 & [t1 T1] & I1 & D1) (U2 & [t2 T2] & I2 & D2).
  repeat split; try congruence.
  exists (t1 ++ t2)%list. now rewrite T2, T1, app_assoc.
Qed.

Lemma framed_ret {A} (a : A) : framed (ret a).
Proof. intros st. apply extends_refl. Qed.

Lemma framed_panic {A} : framed (@panic State A).
Proof. intros st. apply extends_refl. Qed.

Lemma framed_get : framed (@get State).
Proof. intros st. apply extends_refl. Qed.

Lemma framed_bind {A B} (m : M State A) (k : A -> M State B) :
  framed m -> (forall a, framed (k a)) -> framed (bind m k).
Proof.
  intros Hm Hk st. unfold bind. specialize (Hm st).
  destruct (m st) as [a s'|s']; simpl in *; [|exact Hm].
  eapply extends_trans; [exact Hm | apply Hk].
Qed.

Lemma framed_call (e : Event) : framed (call e).
Proof.
  intros st. unfold call. simpl. repeat split; try reflexivity. now exists [e].
Qed.

Lemma framed_call_err (W : World) (e : Event) : framed (call_err W e).
Proof.
  unfold call_err. apply framed_bind; [apply framed_call|].
  intros t. apply framed_ret.
Qed.

Lemma framed_call_str (W : World) (e : Event) : framed (call_str W e).
Proof.
  unfold call_str. apply framed_bind; [apply framed_call|].
  intros t. apply framed_ret.
Qed.

Lemma framed_call_ (e : Event) : framed (call_ e).
Proof.
  unfold call_. apply framed_bind; [apply framed_call|].
  intros t. apply framed_ret.
Qed.

Lemma framed_log_if_err (err : option error) (format : string)
    (args : list arg) :
  framed (log_if_err err format args).
Proof.
  unfold log_if_err. destruct err; [apply framed_call_ | apply framed_ret].
Qed.

Lemma framed_modify_status (f : cellStatus -> cellStatus) :
  framed (modify_status f).
Proof.
  intros st. unfold modify_status, modify. simpl.
  repeat split; try reflexivity. exists []. now rewrite app_nil_r.
Qed.

Lemma framed_modify_goExec (f : GoExec -> GoExec) :
  (forall g, UniqueID (f g) = UniqueID g /\ TempDir (f g) = TempDir g) ->
  framed (modify_goExec f).
Proof.
  intros Hf st. destruct (Hf (goExec st)) as [H1 H2].
  unfold modify_goExec, modify. simpl. repeat split; try assumption.
  exists []. now rewrite app_nil_r.
Qed.

Ltac frame_step :=
  first
    [ apply framed_ret | apply framed_panic | apply framed_get
    | apply framed_call_err | apply framed_call_str | apply framed_call_
    | apply framed_call | apply framed_log_if_err
    | apply framed_modify_status
    | apply framed_modify_goExec; intros ?; split; reflexivity
    | apply framed_bind; [|intros ?]
    | progress cbv zeta
    | match goal with
      | |- framed (if ?b then _ else _) => destruct b
      | |- framed (match ?x with _ => _ end) => destruct x
      end ].

Lemma framed_execInternal (W : World) (msg : option Message)
    (cmd : string) :
  framed (execInternal W msg cmd).
Proof.
  unfold execInternal, with_input_flag. repeat frame_step.
Qed.

Lemma framed_execWriteFile (W : World) (args : list string)
    (body : string) :
  framed (execWriteFile W args body).
Proof. unfold execWriteFile. repeat frame_step. Qed.

Lemma framed_execShell (W : World) (msg : option Message) (cmd : string) :
  framed (execShell W msg cmd).
Proof. unfold execShell, bash. repeat frame_step. Qed.

(** ** What [Parse] does to the used lines *)

Lemma scanned_refl (lines : list string) (st : State) : scanned lines st st.
Proof.
  split; [reflexivity|]. split; [intros z Hz Hnz; contradiction|].
  exists []. now rewrite app_nil_r.
Qed.

Lemma scanned_trans (lines : list string) (st1 st2 st3 : State) :
  scanned lines st1 st2 -> scanned lines st2 st3 -> scanned lines st1 st3.
Proof.
  intros (S1 & B1 & [t1 T1]) (S2 & B2 & [t2 T2]).
  split; [now transitivity (usedLines st2)|]. split.
  - intros z Hz Hnz. destruct (decide (z ∈ usedLines st2)); auto.
  - exists (t1 ++ t2)%list. now rewrite T2, T1, app_assoc.
Qed.

Lemma extends_scanned (lines : list string) (st st' : State) :
  extends st st' -> scanned lines st st'.
Proof.
  intros (U & T & _). split; [now rewrite U|].
  split; [|exact T]. intros z Hz Hnz. rewrite U in Hz. contradiction.
Qed.

Lemma scanned_range (lines : list string) (st : State) (i k : nat) :
  i + k <= length lines ->
  scanned lines st (set_usedLines (line_range i k ∪ usedLines st) st).
Proof.
  intros Hk. split; [apply union_subseteq_r|]. split.
  - simpl. intros z Hz Hnz. apply elem_of_union in Hz as [Hz|Hz];
      [|contradiction].
    apply elem_of_line_range in Hz as (j & -> & Hj). lia.
  - exists []. simpl. now rewrite app_nil_r.
Qed.

Lemma body_lines_length (ls : list string) :
  length (body_lines ls) <= length ls.
Proof.
  induction ls as [|l ls IH]; simpl; [lia|].
  destruct (starts_with_sigil l); simpl; lia.
Qed.

Ltac frame_all :=
  repeat first
    [ apply framed_execInternal | apply framed_execShell
    | apply framed_execWriteFile | frame_step ].

Lemma run_command_scanned (W : World) (msg : option Message)
    (lines : list string) (i : nat) (c : ascii) (cmd : string)
    (err : option error) (st : State) :
  i < length lines ->
  scanned lines st (state_of (run_command W msg lines i c cmd err st)).
Proof.
  intros Hi.
  assert (Hframed : forall A (m : M State A),
             framed m -> scanned lines st (state_of (m st))).
  { intros A m Hm. apply extends_scanned, Hm. }
  unfold run_command.
  destruct (byte_eqb c byte_percent); [|apply Hframed; frame_all].
  destruct (splitCmd cmd) as [|name rest]; [apply Hframed; frame_all|].
  destruct (str_eqb name "writefile"); [|apply Hframed; frame_all].
  unfold bind at 1. unfold run_parseCmdBody. rewrite parseCmdBody_body.
  set (st1 := set_usedLines _ st).
  assert (H1 : scanned lines st st1).
  { subst st1. unfold Insert.
    replace (line_range (S i) (length (body_lines (drop (S i) lines)))
             ∪ ({[Z.of_nat i]} ∪ usedLines st))
      with (line_range i (S (length (body_lines (drop (S i) lines))))
            ∪ usedLines st)
      by (rewrite line_range_S; set_solver).
    apply scanned_range.
    pose proof (body_lines_length (drop (S i) lines)) as Hb.
    rewrite length_drop in Hb. lia. }
  apply (scanned_trans _ _ st1); [exact H1|].
  apply extends_scanned.
  assert (Hk : framed (let* err0 := execWriteFile W rest
                         (body_text (body_lines (drop (S i) lines))) in
                       match err0 with
                       | Some _ => ret (inl err0)
                       | None => ret (inr err0)
                       end)) by frame_all.
  apply Hk.
Qed.

Lemma Parse_for_out_of_range (W : World) (msg : option Message) (n : nat)
    (execute : bool) (lines : list string) (i : nat) (err : option error)
    (st : State) :
  Has (usedLines st) i = false -> lines !! i = None ->
  Parse_for W msg (S n) execute lines i err st = Panic st.
Proof. intros Hu Hl. simpl. unfold bind, get. now rewrite Hu, Hl. Qed.

Lemma Parse_for_scanned (W : World) (msg : option Message)
    (lines : list string) (execute : bool) (n : nat) :
  forall (i : nat) (err : option error) (st : State),
    scanned lines st (state_of (Parse_for W msg n execute lines i err st)).
Proof.
  induction n as [|n IH]; intros i err st; [apply scanned_refl|].
  destruct (Has (usedLines st) i) eqn:Hu;
    [rewrite Parse_for_used by exact Hu; apply IH|].
  destruct (lines !! i) as [l|] eqn:Hl;
    [|rewrite Parse_for_out_of_range by assumption; apply scanned_refl].
  destruct (is_command l) eqn:Hc;
    [|rewrite (Parse_for_other _ _ _ _ _ _ _ _ l Hl Hc); apply IH].
  rewrite (Parse_for_command _ _ _ _ _ _ _ _ _ Hu Hl Hc).
  assert (Hne : l <> EmptyString) by (intros ->; discriminate).
  unfold bind at 1. unfold run_joinLine, zoom.
  rewrite (joinLine_from_line lines i l (usedLines st) Hl Hne).
  set (st1 := set_usedLines _ st).
  assert (H1 : scanned lines st st1).
  { apply scanned_range.
    pose proof (consumed_le (drop i lines)) as Hle.
    rewrite length_drop in Hle. apply lookup_lt_Some in Hl. lia. }
  apply (scanned_trans _ _ st1); [exact H1|].
  unfold after_join.
  destruct (joined (drop i lines)) as [|c s]; [apply scanned_refl|].
  destruct (skip_spaces s) as [cmd|]; [|apply scanned_refl].
  destruct (String.length cmd =? 0)%nat; [apply IH|].
  destruct execute; [|apply IH].
  unfold bind.
  pose proof (run_command_scanned W msg lines i c cmd err st1
                (lookup_lt_Some _ _ _ Hl)) as H2.
  destruct (run_command W msg lines i c cmd err st1) as [[e|e] st2|st2];
    simpl in H2 |- *; try exact H2.
  apply (scanned_trans _ _ st2); [exact H2 | apply IH].
Qed.

(** X8.  Whatever the cell, the flag [execute] and the replies of the
    collaborators, and whether it returns or panics, [Parse] removes no
    line from the set of used lines, adds only numbers of lines of the
    cell, and only appends to the trace. *)
Theorem Parse_marks_lines_of_the_cell (W : World) (msg : option Message)
    (execute : bool) (lines : list string) (st : State) :
  let st' := state_of (Parse W msg execute lines st) in
  usedLines st ⊆ usedLines st'
  /\ (forall z, z ∈ usedLines st' -> z ∉ usedLines st ->
                (0 <= z < Z.of_nat (length lines))%Z)
  /\ exists t, trace st' = (trace st ++ t)%list.
Proof.
  exact (Parse_for_scanned W msg lines execute (length lines) 0 None
           (set_status no_flags st)).
Qed.

Lemma Parse_for_all_used (W : World) (msg : option Message)
    (execute : bool) (lines : list string) (n : nat) :
  forall (i : nat) (err : option error) (st : State),
    (forall j l, i <= j -> lines !! j = Some l -> is_command l = true ->
                 Z.of_nat j ∈ usedLines st) ->
    i + n <= length lines ->
    Parse_for W msg n execute lines i err st = Ok err st.
Proof.
  induction n as [|n IH]; intros i err st Hall Hlen; [reflexivity|].
  destruct (Has (usedLines st) i) eqn:Hu.
  - rewrite Parse_for_used by exact Hu. apply IH; [|lia].
    intros j l Hj. apply Hall. lia.
  - destruct (lookup_lt_is_Some_2 lines i ltac:(lia)) as [l Hl].
    destruct (is_command l) eqn:Hc.
    + apply bool_decide_eq_false in Hu. contradiction Hu.
      now apply (Hall i l).
    + rewrite (Parse_for_other _ _ _ _ _ _ _ _ l Hl Hc). apply IH; [|lia].
      intros j x Hj. apply Hall. lia.
Qed.

(** X9.  When every command line of the cell is already in the set of used
    lines, and so when the cell has no command line, [Parse] returns nil
    and runs nothing, whatever [execute] is: it only resets the flags. *)
Theorem Parse_nothing_to_do (W : World) (msg : option Message)
    (execute : bool) (lines : list string) (st : State) :
  (forall j l, lines !! j = Some l -> is_command l = true ->
               Z.of_nat j ∈ usedLines st) ->
  Parse W msg execute lines st = Ok None (set_status no_flags st).
Proof.
  intros Hall. unfold Parse, bind, modify_status, modify.
  apply Parse_for_all_used; [|simpl; lia].
  intros j l _. apply Hall.
Qed.

Lemma Parse_nothing_to_do_witness :
  Parse quiet None true ["x := 1"; "!rm -rf /"; "%"; "fmt.Println(x)"]
    (set_usedLines {[ 1%Z ]} start)
  = Ok None (set_status no_flags (set_usedLines {[ 1%Z ]} start)).
Proof.
  apply (Parse_nothing_to_do quiet None true
           ["x := 1"; "!rm -rf /"; "%"; "fmt.Println(x)"]
           (set_usedLines {[ 1%Z ]} start)).
  intros j l Hl Hc.
  destruct j as [|[|[|[|j]]]]; simpl in Hl; try discriminate;
    injection Hl as <-; try discriminate.
  change (Z.of_nat 1 ∈ ({[ 1%Z ]} : gset Z)).
  apply elem_of_singleton_2. reflexivity.
Defined.

(** X10.  After a pass of [Parse] without execution over a cell whose
    command lines all have a text, a second pass over the same cell runs
    nothing and changes nothing, even with [execute] set: every command
    line is marked. *)
Theorem Parse_second_pass (W : World) (msg : option Message)
    (lines : list string) (st : State) :
  commands_have_text lines ->
  exists st1,
    Parse W msg false lines st = Ok None st1
    /\ forall (W' : World) (msg' : option Message) (execute : bool),
         Parse W' msg' execute lines st1 = Ok None st1.
Proof.
  intros HP.
  destruct (Parse_for_no_execute W msg lines (length lines) 0 None
              (set_status no_flags st) eq_refl) as (u & _ & _ & Hok).
  destruct (Hok HP) as (E & _ & Hcmd).
  exists (set_usedLines u (set_status no_flags st)). split; [exact E|].
  intros W' msg' execute.
  unfold Parse, bind, modify_status, modify.
  rewrite Parse_for_all_used; [reflexivity | | simpl; lia].
  intros j l Hj Hl Hc. simpl. apply (Hcmd j l); [lia | exact Hl | exact Hc].
Qed.

Lemma Parse_second_pass_witness :
  exists st1,
    Parse quiet None false ["%args a \"; "b"; "x := 1"; "!ls"] start
    = Ok None st1
    /\ forall (W' : World) (msg' : option Message) (execute : bool),
         Parse W' msg' execute ["%args a \"; "b"; "x := 1"; "!ls"] st1
         = Ok None st1.
Proof.
  apply (Parse_second_pass quiet None ["%args a \"; "b"; "x := 1"; "!ls"]
           start).
  unfold commands_have_text. intros l Hl Hc.
  repeat (apply elem_of_cons in Hl as [-> | Hl]);
    try reflexivity; try discriminate.
  now apply elem_of_nil in Hl.
Defined.

(** ** What [Parse] returns *)

Lemma Parse_for_run (W : World) (msg : option Message) (n : nat)
    (lines : list string) (i : nat) (err : option error) (st : State)
    (l raw cmd : string) (c : ascii) :
  lines !! i = Some l -> is_command l = true ->
  Has (usedLines st) i = false ->
  joined (drop i lines) = String c raw -> skip_spaces raw = Some cmd ->
  Parse_for W msg (S n) true lines i err st
  = match run_command W msg lines i c cmd err
            (set_usedLines
               (line_range i (consumed (drop i lines)) ∪ usedLines st) st)
    with
    | Ok (inl e) st' => Ok e st'
    | Ok (inr e) st' => Parse_for W msg n true lines (S i) e st'
    | Panic st' => Panic st'
    end.
Proof.
  intros Hl Hc Hu Hjoin Hskip.
  rewrite (Parse_for_command _ _ _ _ _ _ _ _ _ Hu Hl Hc).
  assert (Hne : l <> EmptyString) by (intros ->; discriminate).
  unfold bind at 1. unfold run_joinLine, zoom.
  rewrite (joinLine_from_line lines i l (usedLines st) Hl Hne), Hjoin.
  unfold after_join. rewrite Hskip, (skip_spaces_Some _ _ Hskip).
  unfold bind. destruct (run_command _ _ _ _ _ _ _ _) as [[e|e] st'|st'];
    reflexivity.
Qed.

(** X11.  The error of [goExec.AutoTrack] after a shell command is logged
    and the scan goes on; but when no command is run after it, that error
    is what [Parse] returns, although the shell command succeeded and every
    line was scanned. *)
Theorem Parse_returns_AutoTrack_error (W : World) (msg : option Message)
    (n : nat) (lines : list string) (i : nat) (err : option error)
    (st st2 : State) (l raw cmd : string) (e : error) :
  lines !! i = Some l -> is_command l = true ->
  Has (usedLines st) i = false ->
  i + S n <= length lines ->
  joined (drop i lines) = String byte_bang raw ->
  skip_spaces raw = Some cmd ->
  let used := line_range i (consumed (drop i lines)) ∪ usedLines st in
  (forall j x, i < j -> lines !! j = Some x -> is_command x = true ->
               Z.of_nat j ∈ used) ->
  execShell W msg cmd (set_usedLines used st) = Ok None st2 ->
  reply_err W (trace st2 ++ [AutoTrack])%list = Some e ->
  Parse_for W msg (S n) true lines i err st
  = Ok (Some e)
      (set_trace
         ((trace st2 ++ [AutoTrack]) ++
          [KlogErrorf "goExec.AutoTrack failed: %+v" [AErr e]])%list st2).
Proof.
  intros Hl Hc Hu Hlen Hjoin Hskip used Hrest Hshell Htrack.
  rewrite (Parse_for_run _ _ _ _ _ _ _ _ _ _ _ Hl Hc Hu Hjoin Hskip).
  fold used.
  assert (Hrun : run_command W msg lines i byte_bang cmd err
                   (set_usedLines used st)
                 = Ok (inr (Some e))
                     (set_trace
                        ((trace st2 ++ [AutoTrack]) ++
                         [KlogErrorf "goExec.AutoTrack failed: %+v"
                            [AErr e]])%list st2)).
  { unfold run_command.
    replace (byte_eqb byte_bang byte_percent) with false by reflexivity.
    replace (byte_eqb byte_bang byte_bang) with true by reflexivity.
    unfold bind at 1. rewrite Hshell.
    unfold call_err, log_if_err, call_. unfold bind, call, ret.
    cbn [trace set_trace]. rewrite Htrack. reflexivity. }
  rewrite Hrun. apply Parse_for_all_used; [|lia].
  intros j x Hj Hx Hcx. cbn [usedLines set_trace].
  pose proof (framed_execShell W msg cmd (set_usedLines used st)) as HF.
  rewrite Hshell in HF. destruct HF as (HU & _). simpl in HU. rewrite HU.
  apply (Hrest j x); [lia | exact Hx | exact Hcx].
Qed.

Lemma Parse_returns_AutoTrack_error_witness :
  exists st',
    Parse_for no_track (Some a_message) 2 true ["!ls"; "x := 1"] 0 None start
    = Ok (Some (Foreign "go.mod not found")) st'.
Proof.
  eexists.
  apply (Parse_returns_AutoTrack_error no_track (Some a_message) 1
           ["!ls"; "x := 1"] 0 None start
           (set_trace [Exec "/bin/bash" ["-c"; "ls"] 7 "" NoInput]
              (set_usedLines (line_range 0 1 ∪ ∅) start))
           "!ls" "ls" "ls" (Foreign "go.mod not found")
           eq_refl eq_refl eq_refl);
    try reflexivity.
  intros j x Hj Hx Hc.
  destruct j as [|[|j]]; [lia | | discriminate].
  injection Hx as <-. discriminate.
Defined.

(** X12.  When a directive returns an error, [Parse] returns it at once:
    of the lines of the cell only those of the directive have been marked,
    and nothing after it is run. *)
Theorem Parse_stops_at_error (W : World) (msg : option Message) (n : nat)
    (lines : list string) (i : nat) (err : option error) (st st2 : State)
    (l raw cmd name : string) (rest : list string) (e : error) :
  lines !! i = Some l -> is_command l = true ->
  Has (usedLines st) i = false ->
  joined (drop i lines) = String byte_percent raw ->
  skip_spaces raw = Some cmd ->
  splitCmd cmd = name :: rest -> str_eqb name "writefile" = false ->
  let used := line_range i (consumed (drop i lines)) ∪ usedLines st in
  execInternal W msg cmd (set_usedLines used st) = Ok (Some e) st2 ->
  Parse_for W msg (S n) true lines i err st = Ok (Some e) st2
  /\ usedLines st2 = used.
Proof.
  intros Hl Hc Hu Hjoin Hskip Hsplit Hwf used Hexec. split.
  - rewrite (Parse_for_run _ _ _ _ _ _ _ _ _ _ _ Hl Hc Hu Hjoin Hskip).
    fold used. unfold run_command.
    replace (byte_eqb byte_percent byte_percent) with true by reflexivity.
    rewrite Hsplit, Hwf. unfold bind. now rewrite Hexec.
  - pose proof (framed_execInternal W msg cmd (set_usedLines used st)) as HF.
    rewrite Hexec in HF. destruct HF as (HU & _). exact HU.
Qed.

Lemma Parse_stops_at_error_witness :
  Parse_for quiet None 2 true ["%wasm now"; "!ls"] 0 None start
  = Ok (Some (Errorf "`%%wasm` takes no extra parameters." []))
      (set_usedLines (line_range 0 1 ∪ ∅) start).
Proof.
  apply (Parse_stops_at_error quiet None 1 ["%wasm now"; "!ls"] 0 None start
           (set_usedLines (line_range 0 1 ∪ ∅) start)
           "%wasm now" "wasm now" "wasm now" "wasm" ["now"]
           (Errorf "`%%wasm` takes no extra parameters." [])
           eq_refl eq_refl eq_refl eq_refl eq_refl eq_refl eq_refl eq_refl).
Defined.

(** ** More on [%env] *)

Lemma execInternal_env (W : World) (msg : option Message) (cmd : string)
    (rest : list string) (st : State) :
  splitCmd cmd = "env" :: rest ->
  execInternal W msg cmd st
  = match
      match rest with
      | [p1] =>
          if (1 <? Index_byte p1 byte_equal)%Z
          then ["env"; take_bytes (Z.to_nat (Index_byte p1 byte_equal)) p1;
                drop_bytes (Z.to_nat (Index_byte p1 byte_equal + 1)) p1]
          else "env" :: rest
      | _ => "env" :: rest
      end
    with
    | [_; key; val] => env_outcome W key val st
    | parts =>
        Ok (Some (Errorf usage_env [VInt (Z.of_nat (length parts) - 1)])) st
    end.
Proof.
  intros Hsplit. unfold execInternal. rewrite Hsplit.
  cbn [one_of].
  replace (str_eqb "env" "%") with false by reflexivity.
  replace (str_eqb "env" "main") with false by reflexivity.
  replace (str_eqb "env" "args") with false by reflexivity.
  replace (str_eqb "env" "test") with false by reflexivity.
  replace (str_eqb "env" "wasm") with false by reflexivity.
  replace (str_eqb "env" "widgets") with false by reflexivity.
  replace (str_eqb "env" "widgets_hb") with false by reflexivity.
  replace (str_eqb "env" "env") with true by reflexivity.
  cbn [orb]. cbv zeta.
  destruct (match rest with
            | [p1] => _
            | _ => _
            end) as [|p0 [|p1 [|p2 [|p3 ps]]]]; try reflexivity.
  unfold env_outcome, log_if_err, call_err, call_. unfold bind, call, ret.
  cbn [trace set_trace].
  destruct (reply_err W _); [reflexivity|].
  destruct (reply_err W _); reflexivity.
Qed.

(** X13.  Unless it has two arguments, or one argument with an [=] after
    its second byte, [%env] returns the usage error with the number of its
    arguments, and calls nothing. *)
Theorem env_usage_error (W : World) (msg : option Message) (cmd : string)
    (rest : list string) (st : State) :
  splitCmd cmd = "env" :: rest ->
  length rest <> 2 ->
  (forall p1, rest = [p1] -> (1 <? Index_byte p1 byte_equal)%Z = false) ->
  execInternal W msg cmd st
  = Ok (Some (Errorf usage_env [VInt (Z.of_nat (length rest))])) st.
Proof.
  intros Hsplit Hlen Hone. rewrite (execInternal_env W msg cmd rest st Hsplit).
  destruct rest as [|p1 [|p2 [|p3 ps]]].
  - reflexivity.
  - rewrite (Hone p1 eq_refl). reflexivity.
  - simpl in Hlen. lia.
  - cbv iota. do 3 f_equal. f_equal. f_equal.
    change (length ("env" :: p1 :: p2 :: p3 :: ps))
      with (S (length (p1 :: p2 :: p3 :: ps))). lia.
Qed.

Lemma env_usage_error_witness :
  execInternal quiet None "env" start
  = Ok (Some (Errorf usage_env [VInt 0])) start
  /\ execInternal quiet None "env A B C" start
     = Ok (Some (Errorf usage_env [VInt 3])) start
  /\ execInternal quiet None "env HOME" start
     = Ok (Some (Errorf usage_env [VInt 1])) start.
Proof.
  split; [|split].
  - apply (env_usage_error quiet None "env" [] start eq_refl);
      [discriminate | intros p1 H; discriminate].
  - apply (env_usage_error quiet None "env A B C" ["A"; "B"; "C"] start
             eq_refl); [discriminate | intros p1 H; discriminate].
  - apply (env_usage_error quiet None "env HOME" ["HOME"] start eq_refl);
      [discriminate | intros p1 H; injection H as <-; reflexivity].
Defined.

Lemma all_plain_app (a b : string) :
  all_plain (a +:+ b) = all_plain a && all_plain b.
Proof.
  induction a as [|c a IH]; [reflexivity|].
  change (String c a +:+ b) with (String c (a +:+ b)). simpl.
  now rewrite IH, andb_assoc.
Qed.

Lemma index_byte_from_app (name v : string) (k : Z) :
  no_equal name = true ->
  index_byte_from k byte_equal (name +:+ String byte_equal v)
  = (k + Z.of_nat (String.length name))%Z.
Proof.
  revert k. induction name as [|c name IH]; intros k Hn.
  - simpl. lia.
  - simpl in Hn. apply andb_prop in Hn as [Hc Hn].
    apply negb_true_iff in Hc.
    change (String c name +:+ String byte_equal v)
      with (String c (name +:+ String byte_equal v)).
    cbn [index_byte_from]. rewrite Hc, IH by assumption.
    cbn [String.length]. lia.
Qed.

Lemma take_bytes_app (a b : string) :
  take_bytes (String.length a) (a +:+ b) = a.
Proof.
  induction a as [|c a IH]; [now destruct b|].
  change (String c a +:+ b) with (String c (a +:+ b)). simpl.
  now rewrite IH.
Qed.

Lemma drop_bytes_app (a b : string) :
  drop_bytes (String.length a) (a +:+ b) = b.
Proof.
  induction a as [|c a IH]; [now destruct b|].
  change (String c a +:+ b) with (String c (a +:+ b)). simpl. exact IH.
Qed.

Lemma splitCmd_unwords_parts (ws : list string) :
  Forall (fun w => word w = true) ws -> splitCmd (unwords ws) = ws.
Proof. intros H. unfold splitCmd. now rewrite splitCmd_for_unwords. Qed.

Lemma word_plain (w : string) :
  word w = true -> all_plain w = true /\ w <> EmptyString.
Proof. destruct w; [discriminate|]. intros H. split; [exact H | discriminate]. Qed.

Lemma plain_word (w : string) :
  all_plain w = true -> w <> EmptyString -> word w = true.
Proof. destruct w; [contradiction | trivial]. Qed.

(** X14.  [%env NAME=VALUE], for a name of two bytes or more, is split at
    its first [=]: it does what [%env NAME VALUE] does, [os.Setenv] of the
    name and the value; and the value may be empty. *)
Theorem env_assignment (W : World) (msg : option Message)
    (name v : string) (st : State) :
  word name = true -> no_equal name = true -> 2 <= String.length name ->
  all_plain v = true ->
  execInternal W msg (unwords ["env"; name +:+ "=" +:+ v]) st
  = env_outcome W name v st
  /\ (v <> EmptyString ->
      execInternal W msg (unwords ["env"; name; v]) st
      = env_outcome W name v st).
Proof.
  intros Hname Hneq Hlen Hv.
  destruct (word_plain _ Hname) as [Hplain Hne]. split.
  - rewrite (execInternal_env W msg _ [name +:+ "=" +:+ v]).
    + unfold Index_byte.
      change (name +:+ "=" +:+ v) with (name +:+ String byte_equal v).
      rewrite index_byte_from_app by assumption.
      replace (1 <? 0 + Z.of_nat (String.length name))%Z with true
        by (symmetry; apply Z.ltb_lt; lia).
      replace (Z.to_nat (0 + Z.of_nat (String.length name)))
        with (String.length name) by lia.
      replace (Z.to_nat (0 + Z.of_nat (String.length name) + 1))
        with (String.length (name +:+ "=")).
      * rewrite take_bytes_app.
        change (name +:+ String byte_equal v) with (name +:+ "=" +:+ v).
        rewrite <- app_assoc', drop_bytes_app. reflexivity.
      * clear. induction name as [|c name IH]; [reflexivity|].
        change (String c name +:+ "=") with (String c (name +:+ "=")).
        cbn [String.length]. lia.
    + apply splitCmd_unwords_parts.
      repeat constructor. apply plain_word.
      * rewrite all_plain_app, Hplain. exact Hv.
      * destruct name; [contradiction | discriminate].
  - intros Hvne.
    rewrite (execInternal_env W msg _ [name; v]); [reflexivity|].
    apply splitCmd_unwords_parts.
    repeat constructor; [exact Hname | now apply plain_word].
Qed.

Lemma env_assignment_witness :
  execInternal quiet None "env GOFLAGS=-mod=mod" start
  = env_outcome quiet "GOFLAGS" "-mod=mod" start
  /\ execInternal quiet None "env GOFLAGS -mod=mod" start
     = env_outcome quiet "GOFLAGS" "-mod=mod" start.
Proof.
  destruct (env_assignment quiet None "GOFLAGS" "-mod=mod" start
              eq_refl eq_refl ltac:(simpl; lia) eq_refl) as [H1 H2].
  split; [exact H1 | exact (H2 ltac:(discriminate))].
Defined.

(** ** Directives that cannot fail, and directives that refuse *)

Lemma one_of_true (a : string) (l : list string) :
  one_of a l = true -> In a l.
Proof.
  induction l as [|b l IH]; [discriminate|]. simpl.
  intros H. apply orb_prop in H as [H | H].
  - left. symmetry. now apply String.eqb_eq.
  - right. now apply IH.
Qed.

Ltac run_directive Hsplit :=
  unfold execInternal; rewrite Hsplit;
  cbn [one_of str_eqb String.eqb Ascii.eqb Bool.eqb orb andb];
  unfold log_if_err, call_err, call_str, call_, modify_goExec, modify_status;
  cbv beta iota zeta delta [bind call ret modify get];
  repeat match goal with
         | |- context [match reply_err ?W ?t with _ => _ end] =>
             destruct (reply_err W t)
         | |- context [if ?b then _ else _] => destruct b
         end.

(** X15.  For a message that is nil, or whose content is nil or a map (the
    messages of [Message]), the directives [%%], [%main], [%args],
    [%test], [%goflags], [%autoget], [%noautoget], [%help], [%ls],
    [%list], [%rm], [%remove], [%track] and [%untrack] return nil,
    whatever their arguments and whatever error the collaborators return:
    a failure to publish their output is only logged. *)
Theorem directives_without_errors (W : World) (msg : option Message)
    (cmd name : string) (rest : list string) (st : State) :
  splitCmd cmd = name :: rest ->
  one_of name ["%"; "main"; "args"; "test"; "goflags"; "autoget";
               "noautoget"; "help"; "ls"; "list"; "rm"; "remove"; "track";
               "untrack"] = true ->
  exists st', execInternal W msg cmd st = Ok None st'.
Proof.
  intros Hsplit Hname. apply one_of_true in Hname.
  repeat (destruct Hname as [<- | Hname];
          [run_directive Hsplit; eexists; reflexivity|]).
  contradiction.
Qed.

Lemma directives_without_errors_witness :
  exists st', execInternal no_publish None "goflags -race" start = Ok None st'.
Proof.
  exact (directives_without_errors no_publish None "goflags -race" "goflags"
           ["-race"] start eq_refl eq_refl).
Defined.



(** X17.  A directive given more arguments than it takes is refused before
    it does anything: [%wasm] with an argument, [%reset] with an argument
    other than [go.mod] or with two arguments, and [%cd] with two arguments
    return an error and leave the state as it is. *)
Theorem extra_arguments_refused (W : World) (msg : option Message)
    (cmd a : string) (rest : list string) (st : State) :
  (splitCmd cmd = "wasm" :: a :: rest ->
   execInternal W msg cmd st
   = Ok (Some (Errorf "`%%wasm` takes no extra parameters." [])) st)
  /\ (splitCmd cmd = "reset" :: a :: rest ->
      a <> "go.mod" \/ rest <> [] ->
      execInternal W msg cmd st = Ok (Some reset_usage) st)
  /\ (forall b, splitCmd cmd = "cd" :: a :: b :: rest ->
      execInternal W msg cmd st
      = Ok (Some (cd_usage (2 + Z.of_nat (length rest)))) st).
Proof.
  split; [|split].
  - intros Hsplit. unfold execInternal. rewrite Hsplit. reflexivity.
  - intros Hsplit Hbad. unfold execInternal. rewrite Hsplit.
    cbn [one_of str_eqb String.eqb Ascii.eqb Bool.eqb orb andb].
    destruct rest as [|b rest]; [|reflexivity].
    destruct Hbad as [Ha | Hr]; [|contradiction].
    apply String.eqb_neq in Ha. unfold str_eqb. rewrite Ha. reflexivity.
  - intros b Hsplit. unfold execInternal. rewrite Hsplit.
    cbn [one_of str_eqb String.eqb Ascii.eqb Bool.eqb orb andb].
    unfold cd_usage. do 5 f_equal.
    change (length ("cd" :: a :: b :: rest)) with (S (S (S (length rest)))).
    lia.
Qed.

Lemma extra_arguments_refused_witness :
  execInternal quiet None "wasm now" start
  = Ok (Some (Errorf "`%%wasm` takes no extra parameters." [])) start
  /\ execInternal quiet None "reset all" start = Ok (Some reset_usage) start
  /\ execInternal quiet None "cd a b c" start = Ok (Some (cd_usage 3)) start.
Proof.
  split; [|split].
  - destruct (extra_arguments_refused quiet None "wasm now" "now" [] start)
      as [H _]. exact (H eq_refl).
  - destruct (extra_arguments_refused quiet None "reset all" "all" [] start)
      as (_ & H & _). apply (H eq_refl). left. discriminate.
  - destruct (extra_arguments_refused quiet None "cd a b c" "a" ["c"] start)
      as (_ & _ & H). exact (H "b" eq_refl).
Defined.

(** [%reset] forgets the definitions and then initialises [go.mod];
    [%reset go.mod] only initialises [go.mod] and keeps the definitions.
    Both return what [GoModInit] returns. *)
Theorem reset_directive (W : World) (msg : option Message) (cmd : string)
    (st : State) :
  (splitCmd cmd = ["reset"] ->
   let t := ((trace st ++ [resetDefinitions]) ++ [GoModInit])%list in
   execInternal W msg cmd st = Ok (reply_err W t) (set_trace t st))
  /\ (splitCmd cmd = ["reset"; "go.mod"] ->
      let t := (trace st ++ [GoModInit])%list in
      execInternal W msg cmd st = Ok (reply_err W t) (set_trace t st)).
Proof.
  split; intros Hsplit; unfold execInternal; rewrite Hsplit; reflexivity.
Qed.

Lemma reset_directive_witness :
  execInternal quiet None "reset" start
  = Ok None (set_trace [resetDefinitions; GoModInit] start)
  /\ execInternal quiet None "reset go.mod" start
     = Ok None (set_trace [GoModInit] start).
Proof.
  destruct (reset_directive quiet None "reset" start) as [H1 _].
  destruct (reset_directive quiet None "reset go.mod" start) as [_ H2].
  split; [exact (H1 eq_refl) | exact (H2 eq_refl)].
Defined.

(** X18.  [%goflags] without arguments keeps the build flags; with
    arguments it replaces them by its non-empty arguments, so that
    [%goflags ""] clears them.  In both cases it reports the flags now in
    force and returns nil. *)
Theorem goflags_directive (W : World) (msg : option Message) (cmd : string)
    (rest : list string) (st : State) :
  splitCmd cmd = "goflags" :: rest ->
  let flags :=
    match rest with
    | [] => GoBuildFlags (goExec st)
    | _ => List.filter (fun s => negb (str_eqb s EmptyString)) rest
    end in
  exists st' tail,
    execInternal W msg cmd st = Ok None st'
    /\ GoBuildFlags (goExec st') = flags
    /\ (rest <> [] -> ~ In EmptyString flags)
    /\ trace st'
       = (trace st ++
          PublishWriteStream StreamStdout
            (Sprintf ("%%goflags=%q" +:+ nl) [VStrs flags]) :: tail)%list.
Proof.
  intros Hsplit flags.
  assert (Hno : rest <> [] -> ~ In EmptyString flags).
  { intros Hne Hin. subst flags. destruct rest; [contradiction|].
    apply filter_In in Hin as [_ Hin]. discriminate. }
  unfold execInternal. rewrite Hsplit.
  cbn [one_of str_eqb String.eqb Ascii.eqb Bool.eqb orb andb].
  unfold log_if_err, call_err, call_, modify_goExec.
  cbv beta iota zeta delta [bind call ret modify get].
  destruct rest as [|a rest];
    cbn [length Nat.ltb Nat.leb goExec trace set_trace set_goExec
         GoBuildFlags set_GoBuildFlags];
    fold flags;
    match goal with
    | |- context [match reply_err W ?t with _ => _ end] =>
        destruct (reply_err W t)
    end;
    eexists _, _; (split; [reflexivity|]);
    cbn [goExec trace set_trace set_goExec GoBuildFlags set_GoBuildFlags];
    (split; [reflexivity|]); (split; [exact Hno|]);
    rewrite <- ?app_assoc; reflexivity.
Qed.

Lemma goflags_directive_witness :
  exists st' tail,
    execInternal quiet None
      ("goflags " +:+ dq +:+ dq +:+ " -race") start = Ok None st'
    /\ GoBuildFlags (goExec st') = ["-race"]
    /\ (["" ; "-race"] <> [] -> ~ In EmptyString ["-race"])
    /\ trace st'
       = ([] ++ PublishWriteStream StreamStdout
                  (Sprintf ("%%goflags=%q" +:+ nl) [VStrs ["-race"]])
                :: tail)%list.
Proof.
  exact (goflags_directive quiet None ("goflags " +:+ dq +:+ dq +:+ " -race")
           [""; "-race"] start eq_refl).
Defined.

(** X19.  [%%], [%main], [%args] and [%test] replace the arguments of the
    program by their own, none included; [%test] also marks the cell as a
    test, and none of them unmarks it.  The build flags, the automatic
    [go get] and the input flags are left as they are. *)
Theorem args_directive (W : World) (msg : option Message)
    (cmd name : string) (rest : list string) (st : State) :
  splitCmd cmd = name :: rest ->
  one_of name ["%"; "main"; "args"; "test"] = true ->
  exists st',
    execInternal W msg cmd st = Ok None st'
    /\ Args (goExec st') = rest
    /\ CellIsTest (goExec st')
       = (str_eqb name "test" || CellIsTest (goExec st))
    /\ GoBuildFlags (goExec st') = GoBuildFlags (goExec st)
    /\ AutoGet (goExec st') = AutoGet (goExec st)
    /\ CellIsWasm (goExec st') = CellIsWasm (goExec st)
    /\ status st' = status st.
Proof.
  intros Hsplit Hname. apply one_of_true in Hname.
  repeat (destruct Hname as [<- | Hname];
          [run_directive Hsplit; eexists; split; [reflexivity|];
           repeat split|]).
  contradiction.
Qed.

Lemma args_directive_witness :
  exists st',
    execInternal quiet None "%"
      (set_goExec (set_Args ["-v"] a_goExec) start) = Ok None st'
    /\ Args (goExec st') = [].
Proof.
  destruct (args_directive quiet None "%" "%" []
              (set_goExec (set_Args ["-v"] a_goExec) start) eq_refl eq_refl)
    as (st' & H1 & H2 & _).
  exists st'. split; [exact H1 | exact H2].
Defined.

(** X20.  [%cd dir] returns an error only when [os.Chdir] fails.  After a
    successful change it reads the working directory, reports it and puts
    it (not the argument) in the environment variable of [GONB_DIR_ENV];
    failures of the report and of the variable are only logged. *)
Theorem cd_directive (W : World) (msg : option Message) (cmd dir : string)
    (st : State) :
  splitCmd cmd = ["cd"; dir] ->
  let moved := (trace st ++ [Chdir (ReplaceTildeInDir W dir)])%list in
  let pwd := reply_str W (moved ++ [Getwd])%list in
  exists r st' tail,
    execInternal W msg cmd st = Ok r st'
    /\ trace st' = (moved ++ tail)%list
    /\ (forall e, reply_err W moved = Some e ->
          r = Some (Wrapf e "`%%cd %q` failed" [VStr dir]) /\ tail = [])
    /\ (reply_err W moved = None ->
          r = None
          /\ In (Setenv (GONB_DIR_ENV W) pwd) tail
          /\ In (PublishWriteStream StreamStdout
                   (Sprintf ("Changed directory to %q" +:+ nl) [VStr pwd]))
               tail).
Proof.
  intros Hsplit moved pwd. unfold execInternal. rewrite Hsplit.
  cbn [one_of str_eqb String.eqb Ascii.eqb Bool.eqb orb andb].
  unfold log_if_err, call_err, call_str, call_.
  cbv beta iota zeta delta [bind call ret modify get].
  cbn [trace set_trace]. fold moved.
  destruct (reply_err W moved) as [e|] eqn:Hmove.
  - eexists _, _, []. split; [reflexivity|]. cbn [trace set_trace].
    split; [now rewrite app_nil_r|].
    split; [intros e' He'; injection He' as <-; now split | discriminate].
  - fold pwd.
    repeat match goal with
           | |- context [match reply_err W ?t with _ => _ end] =>
               destruct (reply_err W t)
           end;
      eexists _, _, _; (split; [reflexivity|]); cbn [trace set_trace];
      (split; [rewrite <- ?app_assoc; reflexivity|]);
      (split; [discriminate|]); intros _; (split; [reflexivity|]);
      split; simpl; tauto.
Qed.

Lemma cd_directive_witness :
  exists r st' tail,
    execInternal no_publish None "cd ~/work" start = Ok r st'
    /\ trace st' = ([Chdir "~/work"] ++ tail)%list
    /\ (forall e, reply_err no_publish [Chdir "~/work"] = Some e ->
          r = Some (Wrapf e "`%%cd %q` failed" [VStr "~/work"]) /\ tail = [])
    /\ (reply_err no_publish [Chdir "~/work"] = None ->
          r = None
          /\ In (Setenv "GONB_DIR" "/home/me") tail
          /\ In (PublishWriteStream StreamStdout
                   (Sprintf ("Changed directory to %q" +:+ nl)
                      [VStr "/home/me"])) tail).
Proof.
  exact (cd_directive no_publish None "cd ~/work" "~/work" start eq_refl).
Defined.

(** ** More on the file-writing directive *)

(** X21.  [execWriteFile] does not panic, and closes the file exactly when
    it has opened it: when [os.OpenFile] fails its error is returned and
    nothing else is called; otherwise the body is written, the success is
    reported only if the writing succeeded, and [Close] is the last call,
    made once. *)
Theorem execWriteFile_closes (W : World) (args : list string)
    (body : string) (st : State) :
  let name := written_name W args (goExec st) in
  let opened :=
    (trace st ++ [OpenFile name (write_flags (append_given W args)) 438])%list
  in
  exists r st' tail,
    execWriteFile W args body st = Ok r st'
    /\ trace st' = (opened ++ tail)%list
    /\ (reply_err W opened <> None ->
        r = reply_err W opened /\ tail = [])
    /\ (reply_err W opened = None ->
        exists mid,
          tail = (WriteString name body :: mid ++ [Close name])%list
          /\ ~ In (Close name) mid
          /\ (r = None ->
              mid = [PublishWriteStream StreamStdout
                       (Lit ("write to " +:+ name +:+ " success" +:+ nl))])).
Proof.
  intros name opened. rewrite execWriteFile_trace. fold name. fold opened.
  destruct (reply_err W opened) as [e|] eqn:Hopen.
  - eexists _, _, []. split; [reflexivity|]. cbn [trace set_trace].
    split; [now rewrite app_nil_r|]. split; [now split | discriminate].
  - destruct (reply_err W (opened ++ [WriteString name body])) as [e|].
    + eexists _, _, _. split; [reflexivity|]. cbn [trace set_trace].
      split; [rewrite <- !app_assoc; reflexivity|].
      split; [intros H; now contradiction H|]. intros _.
      exists []. split; [reflexivity|]. split; [tauto | discriminate].
    + eexists _, _, _. split; [reflexivity|]. cbn [trace set_trace].
      split; [rewrite <- !app_assoc; reflexivity|].
      split; [intros H; now contradiction H|]. intros _.
      exists [PublishWriteStream StreamStdout
                (Lit ("write to " +:+ name +:+ " success" +:+ nl))].
      split; [reflexivity|]. split; [|reflexivity].
      intros [H | []]. discriminate.
Qed.

Lemma execWriteFile_closes_witness :
  exists r st' tail,
    execWriteFile quiet [] "x" start = Ok r st'
    /\ trace st' = ([OpenFile "cell.out" 578 438] ++ tail)%list
    /\ (reply_err quiet [OpenFile "cell.out" 578 438] <> None ->
        r = None /\ tail = [])
    /\ (reply_err quiet [OpenFile "cell.out" 578 438] = None ->
        exists mid,
          tail = (WriteString "cell.out" "x" :: mid ++ [Close "cell.out"])%list
          /\ ~ In (Close "cell.out") mid
          /\ (r = None ->
              mid = [PublishWriteStream StreamStdout
                       (Lit ("write to " +:+ "cell.out" +:+ " success" +:+ nl))])).
Proof. exact (execWriteFile_closes quiet [] "x" start). Defined.

(** X22.  When the line of a [%writefile] directive ends with a backslash,
    the line after it is taken twice: [joinLine] makes it part of the
    directive, and [parseCmdBody], which starts again after the first line
    of the directive, makes it the first line of the body, unless it begins
    with a sigil. *)
Theorem writefile_continuation_in_body (lines : list string) (i : nat)
    (l l1 : string) (used used' : gset Z) :
  lines !! i = Some l -> ends_with_backslash l = true ->
  lines !! S i = Some l1 -> starts_with_sigil l1 = false ->
  joinLine lines i used
  = Ok (drop_last l +:+ " " +:+ joined (drop (S i) lines))
      (line_range i (consumed (drop i lines)) ∪ used)
  /\ Z.of_nat (S i) ∈ line_range i (consumed (drop i lines)) ∪ used
  /\ exists tail_body,
       fst (parseCmdBody lines i used') = l1 +:+ nl +:+ tail_body.
Proof.
  intros Hl Hends Hl1 Hsig.
  assert (Hne : l <> EmptyString) by (intros ->; discriminate).
  rewrite (joinLine_from_line lines i l used Hl Hne).
  rewrite parseCmdBody_body.
  rewrite (drop_S _ _ _ Hl). cbn [joined consumed]. rewrite Hends.
  split; [reflexivity|]. split.
  - apply elem_of_union. left. apply elem_of_line_range.
    exists (S i). split; [reflexivity|].
    rewrite (drop_S _ _ _ Hl1).
    pose proof (consumed_pos l1 (drop (S (S i)) lines)). lia.
  - rewrite (drop_S _ _ _ Hl1). cbn [body_lines]. rewrite Hsig.
    cbn [body_text fst]. eauto.
Qed.

Lemma writefile_continuation_in_body_witness :
  joinLine ["%writefile \"; "out.txt"; "hello"] 0 ∅
  = Ok ("%writefile " +:+ " " +:+ joined (drop 1 ["%writefile \"; "out.txt"; "hello"]))
      (line_range 0 (consumed (drop 0 ["%writefile \"; "out.txt"; "hello"])) ∪ ∅)
  /\ Z.of_nat 1 ∈ line_range 0 (consumed (drop 0 ["%writefile \"; "out.txt"; "hello"])) ∪ (∅ : gset Z)
  /\ exists tail_body,
       fst (parseCmdBody ["%writefile \"; "out.txt"; "hello"] 0 ∅)
       = "out.txt" +:+ nl +:+ tail_body.
Proof.
  exact (writefile_continuation_in_body ["%writefile \"; "out.txt"; "hello"]
           0 "%writefile \" "out.txt" ∅ ∅ eq_refl eq_refl eq_refl eq_refl).
Defined.

(** A cell whose [%writefile] line is continued: the name of the file is
    also the first line written to it. *)
Example Parse_writefile_continued :
  trace (state_of (Parse quiet None true
                     ["%writefile \"; "out.txt"; "hello"] start))
  = [OpenFile "out.txt" 578 438;
     WriteString "out.txt" ("out.txt" +:+ nl +:+ "hello" +:+ nl);
     PublishWriteStream StreamStdout (Lit ("write to out.txt success" +:+ nl));
     Close "out.txt"].
Proof. vm_compute. reflexivity. Qed.

(** ** Without execution *)

Lemma Parse_for_false_alone (W W' : World) (msg msg' : option Message)
    (lines : list string) (n : nat) :
  forall (i : nat) (err : option error) (s : State),
    Parse_for W msg n false lines i err s
    = Parse_for W' msg' n false lines i err s.
Proof.
  induction n as [|n IH]; intros i err s; [reflexivity|].
  destruct (Has (usedLines s) i) eqn:Hu;
    [rewrite !Parse_for_used by exact Hu; apply IH|].
  destruct (lines !! i) as [l|] eqn:Hl;
    [|now rewrite !Parse_for_out_of_range].
  destruct (is_command l) eqn:Hc.
  - rewrite !(Parse_for_command_no_execute _ _ _ _ _ _ _ _ Hu Hl Hc).
    cbv zeta. destruct (joined (drop i lines)); [reflexivity|].
    destruct (skip_spaces _); [apply IH | reflexivity].
  - rewrite !(Parse_for_other _ _ _ _ _ _ _ _ l Hl Hc). apply IH.
Qed.

(** X24.  Without execution, [Parse] depends neither on the message nor on
    the collaborators. *)
Theorem Parse_false_alone (W W' : World) (msg msg' : option Message)
    (lines : list string) (st : State) :
  Parse W msg false lines st = Parse W' msg' false lines st.
Proof. apply Parse_for_false_alone. Qed.

(** * The directives in the scan *)

(** ** [%writefile] *)

(** C5.  When the scan of [Parse], with [execute] set, arrives at a
    [%writefile] directive on line [lineNum], the body is made of the lines
    of the cell after that line, up to the first one that begins with [%]
    or [!] or to the end, each followed by a newline, and these lines are
    marked as used.  The destination is opened with [O_TRUNC], or with
    [O_APPEND] in its place when the append flag is given, and the body is
    written to it; an error of one of the calls ends [Parse], and otherwise
    the scan goes on with the next line. *)
Theorem writefile_writes_body (W : World) (msg : option Message) (n : nat)
    (lines : list string) (lineNum : nat) (err : option error) (st : State)
    (l raw cmd : string) (args : list string) :
  lines !! lineNum = Some l -> is_command l = true ->
  Has (usedLines st) lineNum = false ->
  joined (drop lineNum lines) = String byte_percent raw ->
  skip_spaces raw = Some cmd ->
  splitCmd cmd = "writefile" :: args ->
  let body := body_lines (drop (S lineNum) lines) in
  let used :=
    line_range (S lineNum) (length body)
    ∪ Insert lineNum
        (line_range lineNum (consumed (drop lineNum lines)) ∪ usedLines st) in
  let name := written_name W args (goExec st) in
  let flag := write_flags (append_given W args) in
  let opened := (trace st ++ [OpenFile name flag 438])%list in
  let wrote := (opened ++ [WriteString name (body_text body)])%list in
  let told :=
    (wrote ++ [PublishWriteStream StreamStdout
                 (Lit ("write to " +:+ name +:+ " success" +:+ nl))])%list in
  let closed := (told ++ [Close name])%list in
  Z.land flag O_TRUNC = (if append_given W args then 0 else O_TRUNC)%Z
  /\ Z.land flag O_APPEND = (if append_given W args then O_APPEND else 0)%Z
  /\ Parse_for W msg (S n) true lines lineNum err st
     = match reply_err W opened with
       | Some e => Ok (Some e) (set_trace opened (set_usedLines used st))
       | None =>
           match reply_err W wrote with
           | Some e =>
               Ok (Some e)
                 (set_trace (wrote ++ [Close name])%list
                    (set_usedLines used st))
           | None =>
               match reply_err W told with
               | Some e =>
                   Ok (Some e) (set_trace closed (set_usedLines used st))
               | None =>
                   Parse_for W msg n true lines (S lineNum) None
                     (set_trace closed (set_usedLines used st))
               end
           end
       end.
Proof.
  intros Hl Hc Hu Hjoin Hskip Hsplit body used name flag opened wrote told
    closed.
  split; [subst flag; destruct (append_given W args); reflexivity|].
  split; [subst flag; destruct (append_given W args); reflexivity|].
  rewrite (Parse_for_run _ _ _ _ _ _ _ _ _ _ _ Hl Hc Hu Hjoin Hskip).
  unfold run_command.
  replace (byte_eqb byte_percent byte_percent) with true by reflexivity.
  rewrite Hsplit.
  replace (str_eqb "writefile" "writefile") with true by reflexivity.
  unfold bind at 1 2. unfold run_parseCmdBody.
  cbn [usedLines set_usedLines]. rewrite parseCmdBody_body.
  fold body. fold used.
  rewrite execWriteFile_trace. cbn [trace goExec set_usedLines].
  fold name. fold flag. fold opened. fold wrote. fold told. fold closed.
  destruct (reply_err W opened); [reflexivity|].
  destruct (reply_err W wrote); [reflexivity|].
  destruct (reply_err W told); reflexivity.
Qed.

Lemma writefile_writes_body_witness :
  Parse_for quiet None 5 true
    ["%writefile -a out.txt"; "hello"; "world"; "!ls"; "x"] 0 None start
  = Parse_for quiet None 4 true
      ["%writefile -a out.txt"; "hello"; "world"; "!ls"; "x"] 1 None
      (set_trace
         [OpenFile "out.txt" 1090 438;
          WriteString "out.txt" ("hello" +:+ nl +:+ "world" +:+ nl);
          PublishWriteStream StreamStdout
            (Lit ("write to out.txt success" +:+ nl));
          Close "out.txt"]
         (set_usedLines {[ 0%Z; 1%Z; 2%Z ]} start)).
Proof.
  destruct (writefile_writes_body quiet None 4
              ["%writefile -a out.txt"; "hello"; "world"; "!ls"; "x"] 0
              None start "%writefile -a out.txt" "writefile -a out.txt"
              "writefile -a out.txt" ["-a"; "out.txt"]
              eq_refl eq_refl eq_refl eq_refl eq_refl eq_refl)
    as (_ & _ & H).
  rewrite H. vm_compute. reflexivity.
Defined.

(** ** The input flags from a directive to the next shell line *)






(** ** [%env] with a name of one character *)

Lemma high_byte (c : ascii) :
  is_ascii c = false ->
  isSpace c = false /\ isQuote c = false
  /\ no_equal (fmt_c c) = true /\ String.length (fmt_c c) = 2.
Proof.
  destruct c as [[] [] [] [] [] [] [] []]; intros H;
    try discriminate H; repeat split; reflexivity.
Qed.

Lemma splitCmd_for_high (c : ascii) (rest : string) (ps : bool)
    (part : string) (parts : list string) :
  is_ascii c = false ->
  splitCmd_for (String c rest) ps false part parts
  = splitCmd_for rest true false (part +:+ fmt_c c) parts.
Proof.
  intros H. destruct (high_byte c H) as (Hs & Hq & _).
  cbn [splitCmd_for negb andb]. rewrite Hs, Hq.
  destruct (isEscape c); reflexivity.
Qed.

Lemma splitCmd_for_high_word (name : string) :
  forall (rest : string) (ps : bool) (part : string) (parts : list string),
    all_high name = true -> name <> EmptyString ->
    splitCmd_for (name +:+ rest) ps false part parts
    = splitCmd_for rest true false (part +:+ fmt_s name) parts.
Proof.
  induction name as [|c name IH]; intros rest ps part parts Hh Hne;
    [contradiction|].
  simpl in Hh. apply andb_prop in Hh as [Hc Hh].
  apply negb_true_iff in Hc.
  change (String c name +:+ rest) with (String c (name +:+ rest)).
  rewrite splitCmd_for_high by assumption.
  cbn [fmt_s]. rewrite <- app_assoc'.
  destruct name as [|d name].
  - cbn [fmt_s]. now rewrite app_empty_r.
  - apply IH; [exact Hh | discriminate].
Qed.

Lemma no_equal_app (a b : string) :
  no_equal (a +:+ b) = no_equal a && no_equal b.
Proof.
  induction a as [|c a IH]; [reflexivity|].
  change (String c a +:+ b) with (String c (a +:+ b)). simpl.
  now rewrite IH, andb_assoc.
Qed.

Lemma length_app_string (a b : string) :
  String.length (a +:+ b) = String.length a + String.length b.
Proof.
  induction a as [|c a IH]; [reflexivity|].
  change (String c a +:+ b) with (String c (a +:+ b)).
  cbn [String.length]. now rewrite IH.
Qed.

Lemma fmt_s_high (name : string) :
  all_high name = true ->
  no_equal (fmt_s name) = true
  /\ String.length (fmt_s name) = 2 * String.length name.
Proof.
  induction name as [|c name IH]; intros Hh; [split; reflexivity|].
  simpl in Hh. apply andb_prop in Hh as [Hc Hh].
  apply negb_true_iff in Hc.
  destruct (high_byte c Hc) as (_ & _ & Hn & Hl).
  destruct (IH Hh) as [IHn IHl].
  cbn [fmt_s]. rewrite no_equal_app, length_app_string, Hn, IHn, Hl, IHl.
  cbn [String.length]. split; [reflexivity | lia].
Qed.

(** [%env] with one argument that has its first [=] after two bytes or
    more. *)
Lemma env_split_at_equal (W : World) (msg : option Message)
    (cmd key v : string) (st : State) :
  splitCmd cmd = ["env"; key +:+ "=" +:+ v] ->
  no_equal key = true -> 2 <= String.length key ->
  execInternal W msg cmd st = env_outcome W key v st.
Proof.
  intros Hsplit Hneq Hlen.
  rewrite (execInternal_env W msg cmd [key +:+ "=" +:+ v] st Hsplit).
  unfold Index_byte.
  change (key +:+ "=" +:+ v) with (key +:+ String byte_equal v).
  rewrite index_byte_from_app by assumption.
  replace (1 <? 0 + Z.of_nat (String.length key))%Z with true
    by (symmetry; apply Z.ltb_lt; lia).
  replace (Z.to_nat (0 + Z.of_nat (String.length key)))
    with (String.length key) by lia.
  replace (Z.to_nat (0 + Z.of_nat (String.length key) + 1))
    with (String.length (key +:+ "="))
    by (rewrite length_app_string; cbn [String.length]; lia).
  rewrite take_bytes_app.
  change (key +:+ String byte_equal v) with (key +:+ "=" +:+ v).
  rewrite <- app_assoc', drop_bytes_app. reflexivity.
Qed.

Lemma splitCmd_env_high (name v : string) :
  all_high name = true -> name <> EmptyString -> all_plain v = true ->
  splitCmd ("env " +:+ name +:+ "=" +:+ v)
  = ["env"; fmt_s name +:+ "=" +:+ v].
Proof.
  intros Hh Hne Hv.
  change (splitCmd ("env " +:+ name +:+ "=" +:+ v))
    with (splitCmd_for (name +:+ String byte_equal v) false false
            EmptyString ["env"]).
  rewrite splitCmd_for_high_word by assumption.
  rewrite <- (app_empty_r (String byte_equal v)).
  rewrite splitCmd_for_word by (reflexivity || assumption).
  reflexivity.
Qed.

(** C10, amended.  [%env K=V] with a name [K] of one ASCII byte is not
    split into name and value, the [=] being at index 1 (or 0): the
    directive returns the error that two arguments are needed and one was
    given, and sets nothing, while [%env K V] calls [os.Setenv] with [K]
    and [V], and when that succeeds reports the variable as set and returns
    nil.  A name made of bytes that are not ASCII, as a character outside
    ASCII is, fills two bytes or more of the argument: the argument is
    split, and [os.Setenv] is called with the name as the tokenizer has
    re-encoded it. *)
Theorem env_single_byte_name (W : World) (msg : option Message)
    (k : ascii) (v : string) (st : State) :
  plain k = true -> all_plain v = true ->
  execInternal W msg ("env " +:+ String k ("=" +:+ v)) st
  = Ok (Some (Errorf usage_env [VInt 1])) st
  /\ (v <> EmptyString ->
      let set := (trace st ++ [Setenv (String k EmptyString) v])%list in
      exists r st' tail,
        execInternal W msg ("env " +:+ String k (" " +:+ v)) st = Ok r st'
        /\ trace st' = (set ++ tail)%list
        /\ (reply_err W set = None ->
            r = None
            /\ exists tail',
                 tail = PublishWriteStream StreamStdout
                          (Sprintf ("Set: %s=%q" +:+ nl)
                             [VStr (String k EmptyString); VStr v])
                        :: tail'))
  /\ (forall name : string,
        all_high name = true -> name <> EmptyString ->
        execInternal W msg ("env " +:+ name +:+ "=" +:+ v) st
        = env_outcome W (fmt_s name) v st).
Proof.
  intros Hk Hv. split; [|split].
  - apply (execInternal_env_one W msg _ (String k (String byte_equal v))).
    + apply splitCmd_env_one; [assumption|].
      change (plain byte_equal && all_plain v = true). exact Hv.
    + apply Index_byte_second.
  - intros Hne set. destruct v as [|c w]; [contradiction|].
    simpl in Hv. apply andb_prop in Hv as [Hc Hw].
    rewrite (execInternal_env_two W msg _ (String k EmptyString)
               (String c w) st (splitCmd_env_two k c w Hk Hc Hw)).
    fold set.
    destruct (reply_err W set) as [e|].
    + eexists _, _, []. split; [reflexivity|]. cbn [trace set_trace].
      split; [now rewrite app_nil_r | discriminate].
    + destruct (reply_err W _) as [e|];
        eexists _, _, _; (split; [reflexivity|]); cbn [trace set_trace];
        (split; [rewrite <- ?app_assoc; reflexivity|]);
        intros _; (split; [reflexivity|]); eexists; reflexivity.
  - intros name Hh Hne.
    destruct (fmt_s_high name Hh) as [Hn Hl].
    apply env_split_at_equal; [now apply splitCmd_env_high | exact Hn |].
    destruct name; [contradiction|]. cbn [String.length] in Hl. lia.
Qed.

Lemma env_single_byte_name_witness :
  execInternal quiet None "env K=V" start
  = Ok (Some (Errorf usage_env [VInt 1])) start
  /\ (exists r st' tail,
        execInternal quiet None "env K V" start = Ok r st'
        /\ trace st' = ([Setenv "K" "V"] ++ tail)%list
        /\ (reply_err quiet [Setenv "K" "V"] = None ->
            r = None
            /\ exists tail',
                 tail = PublishWriteStream StreamStdout
                          (Sprintf ("Set: %s=%q" +:+ nl) [VStr "K"; VStr "V"])
                        :: tail'))
  /\ execInternal quiet None ("env " +:+ e_acute +:+ "=" +:+ "V") start
     = env_outcome quiet (fmt_s e_acute) "V" start.
Proof.
  destruct (env_single_byte_name quiet None "K"%char "V" start
              eq_refl eq_refl) as (H1 & H2 & H3).
  split; [exact H1|]. split; [exact (H2 ltac:(discriminate))|].
  exact (H3 e_acute eq_refl ltac:(discriminate)).
Defined.

(** C10 as stated fails: with the name [é], one character but two bytes,
    [%env é=V] does not return the usage error; the argument is split and
    the variable is set, under the name as the tokenizer re-encoded it. *)
Lemma env_accented_name_is_split :
  execInternal quiet None ("env " +:+ e_acute +:+ "=V") start
  <> Ok (Some (Errorf usage_env [VInt 1])) start
  /\ execInternal quiet None ("env " +:+ e_acute +:+ "=V") start
     = Ok None
         (set_trace
            [Setenv (String (ascii_of_N 195) (String (ascii_of_N 131)
                       (String (ascii_of_N 194)
                          (String (ascii_of_N 169) EmptyString)))) "V";
             PublishWriteStream StreamStdout
               (Sprintf ("Set: %s=%q" +:+ nl)
                  [VStr (String (ascii_of_N 195) (String (ascii_of_N 131)
                           (String (ascii_of_N 194)
                              (String (ascii_of_N 169) EmptyString))));
                   VStr "V"])]
            start).
Proof. vm_compute. split; [discriminate | reflexivity]. Qed.

(** ** [Parse] without execution on an empty command *)

(** C9.  The code at the input [["% "]] with [execute] false: [Parse] does
    not return nil but panics.  The loop that skips the spaces reads the
    first byte of the command without testing its length, and empties it,
    although the statement after the loop is there to skip an empty
    command.  And on a [%writefile] line that ends with a backslash the
    next line, which is the first line of the body when the directive is
    run, is marked with [execute] false as well. *)
Theorem Parse_without_execute_panics :
  Parse quiet None false ["% "] start
  = Panic (set_usedLines {[ 0%Z ]} start)
  /\ skip_spaces " " = None
  /\ usedLines (state_of (Parse quiet None false
                            ["%writefile \"; "out.txt"; "hello"] start))
     = {[ 0%Z; 1%Z ]}
  /\ fst (parseCmdBody ["%writefile \"; "out.txt"; "hello"] 0 ∅)
     = "out.txt" +:+ nl +:+ "hello" +:+ nl.
Proof. vm_compute. repeat split. Qed.
